(** * react-bits-mcp-server: request dispatch and fault isolation

    A shallow embedding of the dispatch layer of the server (handler.js,
    tools/index.js, the five tool handlers and the start-up routine)
    together with the statements the specification makes about it.

    Strings are JavaScript strings: finite sequences of UTF-16 code
    units.  The server is single-threaded and cooperative, so an [async]
    function is run to completion: it maps the world before the call to
    an outcome and the world after it.

    The first half of the file holds the model, the second half the
    properties. *)

From Stdlib Require Import List String Ascii NArith ZArith Bool Lia.
From Stdlib Require Import DecimalString.
Import ListNotations.

Set Warnings "-register-all".

(** ** JavaScript strings and values *)

Module JS.

Definition jsstring := list N.

(** A source-code string literal, as code units. *)
Definition js (s : string) : jsstring :=
  map N_of_ascii (list_ascii_of_string s).

(** The characters a Rocq literal cannot hold conveniently. *)
Definition nl : jsstring := [10%N].
Definition dq : jsstring := [34%N].

Fixpoint str_eqb (a b : jsstring) : bool :=
  match a, b with
  | [], [] => true
  | x :: a', y :: b' => N.eqb x y && str_eqb a' b'
  | _, _ => false
  end.

(** [a < b] in code-unit order, the order of [Array.prototype.sort]
    without a comparator on strings. *)
Fixpoint str_ltb (a b : jsstring) : bool :=
  match a, b with
  | _, [] => false
  | [], _ :: _ => true
  | x :: a', y :: b' =>
      if N.ltb x y then true
      else if N.eqb x y then str_ltb a' b' else false
  end.

Fixpoint insert_sorted (x : jsstring) (l : list jsstring) : list jsstring :=
  match l with
  | [] => [x]
  | y :: l' => if str_ltb y x then y :: insert_sorted x l' else x :: l
  end.

(** [names.sort()] on an array of strings. *)
Definition sort (l : list jsstring) : list jsstring :=
  fold_right insert_sorted [] l.

(** [String(n)] for a non-negative integer. *)
Definition decimal (n : N) : jsstring :=
  js (NilEmpty.string_of_uint (N.to_uint n)).

Definition includes (l : list jsstring) (s : jsstring) : bool :=
  existsb (str_eqb s) l.

(** Values that travel in requests and responses.  Numbers carry an
    integer payload: no path of the dispatch layer computes with them. *)
Inductive JSVal :=
| VUndef
| VNull
| VBool (b : bool)
| VNum (n : Z)
| VStr (s : jsstring)
| VArr (items : list JSVal)
| VObj (fields : list (jsstring * JSVal)).

(** ToBoolean. *)
Definition truthy (v : JSVal) : bool :=
  match v with
  | VUndef | VNull => false
  | VBool b => b
  | VNum n => negb (Z.eqb n 0)
  | VStr s => match s with [] => false | _ => true end
  | VArr _ | VObj _ => true
  end.

(** Own-property read on an object given by its fields. *)
Fixpoint lookup {V : Type} (fields : list (jsstring * V)) (key : jsstring) : option V :=
  match fields with
  | [] => None
  | (k, v) :: rest => if str_eqb k key then Some v else lookup rest key
  end.

Definition prop (fields : list (jsstring * JSVal)) (key : jsstring) : JSVal :=
  match lookup fields key with
  | Some v => v
  | None => VUndef
  end.

(** The names every object literal inherits from [Object.prototype]:
    a read such as [table[name]] finds a value under them although the
    literal does not list them. *)
Definition objectPrototypeNames : list jsstring :=
  [ js "constructor"; js "__defineGetter__"; js "__defineSetter__";
    js "hasOwnProperty"; js "__lookupGetter__"; js "__lookupSetter__";
    js "isPrototypeOf"; js "propertyIsEnumerable"; js "toString";
    js "valueOf"; js "__proto__"; js "toLocaleString" ].

Definition inherited (key : jsstring) : bool :=
  includes objectPrototypeNames key.

(** *** Property order of [Object.entries]

    Array-index keys come first, in ascending numeric order; the other
    string keys follow in insertion order. *)

Definition is_digit (c : N) : bool := (48 <=? c)%N && (c <=? 57)%N.

Definition digits_value (s : jsstring) : N :=
  fold_left (fun acc c => (acc * 10 + (c - 48))%N) s 0%N.

(** A canonical numeric string below 2^32 - 1. *)
Definition array_index (s : jsstring) : option N :=
  match s with
  | [] => None
  | c :: rest =>
      if forallb is_digit s
         && (negb (N.eqb c 48) || match rest with [] => true | _ => false end)
         && (List.length s <=? 10)%nat
         && (digits_value s <? 4294967295)%N
      then Some (digits_value s) else None
  end.

Fixpoint insert_index {V : Type} (i : N) (kv : jsstring * V)
         (l : list (N * (jsstring * V))) : list (N * (jsstring * V)) :=
  match l with
  | [] => [(i, kv)]
  | (j, kv') :: l' =>
      if N.ltb j i then (j, kv') :: insert_index i kv l' else (i, kv) :: l
  end.

Definition entries {V : Type} (o : list (jsstring * V)) : list (jsstring * V) :=
  let indexed :=
    fold_left (fun acc kv =>
                 match array_index (fst kv) with
                 | Some i => insert_index i kv acc
                 | None => acc
                 end) o [] in
  map snd indexed
  ++ filter (fun kv => match array_index (fst kv) with Some _ => false | None => true end) o.

(** *** Thrown values *)

(** What a [throw] carries: an [Error] object (of whatever subclass,
    with its [name] and [message]) or some other value. *)
Inductive Thrown :=
| ErrorObj (name message : jsstring)
| NonError (v : JSVal).

(** [new Error(message)]. *)
Definition Error (message : jsstring) : Thrown := ErrorObj (js "Error") message.
Definition TypeError (message : jsstring) : Thrown := ErrorObj (js "TypeError") message.
Definition ReferenceError (message : jsstring) : Thrown :=
  ErrorObj (js "ReferenceError") message.

(** [error instanceof Error ? error.message : 'Unknown error occurred'] *)
Definition errorMessage (error : Thrown) : jsstring :=
  match error with
  | ErrorObj _ message => message
  | NonError _ => js "Unknown error occurred"
  end.

End JS.
Export JS.

(** ** The world of a request: the clock and the log *)

(** Modelled from the spec: utils/logger.js is not among the sources;
    section 6 gives [logInfo(message, context?)] and
    [logError(message, error)] as fire-and-forget calls that never
    affect control flow.  A call appends an entry to the log. *)
Inductive LogEntry :=
| LogInfo (message : jsstring) (context : option JSVal)
| LogError (message : jsstring) (error : Thrown).

(** [log] is kept most recent entry first. *)
Record World := { now : Z; log : list LogEntry }.

Definition record (e : LogEntry) (w : World) : World :=
  {| now := now w; log := e :: log w |}.

(** ** Handler computations: may throw, may log *)

Module Async.

Definition H (A : Type) : Type := World -> (Thrown + A) * World.

Definition ret {A} (a : A) : H A := fun w => (inr a, w).

Definition throw {A} (e : Thrown) : H A := fun w => (inl e, w).

Definition bind {A B} (c : H A) (k : A -> H B) : H B :=
  fun w =>
    match c w with
    | (inr a, w') => k a w'
    | (inl e, w') => (inl e, w')
    end.

(** [try { body } catch (error) { handler }] *)
Definition try_catch {A} (body : H A) (handler : Thrown -> H A) : H A :=
  fun w =>
    match body w with
    | (inr a, w') => (inr a, w')
    | (inl e, w') => handler e w'
    end.

(** Awaiting a call that settles without touching the log. *)
Definition await {A} (r : Thrown + A) : H A := fun w => (r, w).

Definition logInfo (message : jsstring) : H unit :=
  fun w => (inr tt, record (LogInfo message None) w).

Definition logError (message : jsstring) (error : Thrown) : H unit :=
  fun w => (inr tt, record (LogError message error) w).

End Async.
Export Async.

Declare Scope async_scope.
Delimit Scope async_scope with async.
Notation "x <- c ;; k" := (bind c (fun x => k))
  (at level 61, c at next level, right associativity) : async_scope.
Notation "c ;;; k" := (bind c (fun _ => k))
  (at level 61, right associativity) : async_scope.

(** ** The circuit breaker *)

Module Breaker.

(** Modelled from the spec: utils/circuit-breaker.js is not among the
    sources; the three states are those of section 4.1. *)
Inductive Status := Closed | Open | HalfOpen.

(** Modelled from the spec: the CircuitBreakerState entry of section 3,
    [{status, consecutiveFailures >= 0, openedAt: timestamp | none,
    failureThreshold, resetTimeout}]. *)
Record CircuitBreakerState := {
  status : Status;
  consecutiveFailures : N;
  openedAt : option Z;
  failureThreshold : N;
  resetTimeout : Z
}.

Definition with_status (s : Status) (st : CircuitBreakerState) :=
  {| status := s;
     consecutiveFailures := consecutiveFailures st;
     openedAt := openedAt st;
     failureThreshold := failureThreshold st;
     resetTimeout := resetTimeout st |}.

(** Modelled from the spec: "reset to Closed/0 at process start". *)
Definition initial (threshold : N) (timeout : Z) : CircuitBreakerState :=
  {| status := Closed; consecutiveFailures := 0; openedAt := None;
     failureThreshold := threshold; resetTimeout := timeout |}.

(** Modelled from the spec: "if now - openedAt >= resetTimeout".  The
    spec is silent on an Open state without a timestamp; no transition
    produces one, and the model lets the trial through. *)
Definition elapsed (st : CircuitBreakerState) (now : Z) : bool :=
  match openedAt st with
  | Some t => (resetTimeout st <=? now - t)%Z
  | None => true
  end.

(** Modelled from the spec: the decision taken before the wrapped call.
    Closed: calls pass through.  Open: calls are rejected at once, but
    once the reset timeout has passed the breaker turns HalfOpen before
    the call is evaluated (lazily, at call time) and the call is the
    trial.  [None] rejects; [Some] lets the call through in the given
    state. *)
Definition gate (st : CircuitBreakerState) (now : Z) : option CircuitBreakerState :=
  match status st with
  | Closed => Some st
  | HalfOpen => Some st
  | Open => if elapsed st now then Some (with_status HalfOpen st) else None
  end.

(** The breaker lets the next call through: it is Closed, or it is Open
    and the reset timeout has passed. *)
Definition lets_through (st : CircuitBreakerState) (now : Z) : Prop :=
  status st = Closed \/ (status st = Open /\ elapsed st now = true).

(** Modelled from the spec: on success, Closed resets
    [consecutiveFailures] to 0, and HalfOpen moves to Closed and resets
    it to 0. *)
Definition on_success (st : CircuitBreakerState) : CircuitBreakerState :=
  {| status := Closed; consecutiveFailures := 0; openedAt := openedAt st;
     failureThreshold := failureThreshold st; resetTimeout := resetTimeout st |}.

(** Modelled from the spec: on failure, Closed increments
    [consecutiveFailures] and, when it reaches [failureThreshold], moves
    to Open and records [openedAt = now]; HalfOpen moves back to Open
    and resets [openedAt = now]. *)
Definition on_failure (st : CircuitBreakerState) (now : Z) : CircuitBreakerState :=
  match status st with
  | HalfOpen =>
      {| status := Open; consecutiveFailures := consecutiveFailures st;
         openedAt := Some now;
         failureThreshold := failureThreshold st; resetTimeout := resetTimeout st |}
  | _ =>
      let n := (consecutiveFailures st + 1)%N in
      if (failureThreshold st <=? n)%N then
        {| status := Open; consecutiveFailures := n; openedAt := Some now;
           failureThreshold := failureThreshold st; resetTimeout := resetTimeout st |}
      else
        {| status := status st; consecutiveFailures := n; openedAt := openedAt st;
           failureThreshold := failureThreshold st; resetTimeout := resetTimeout st |}
  end.

(** Open, with the time of opening recorded. *)
Definition tripped (st : CircuitBreakerState) : Prop :=
  status st = Open /\ exists t, openedAt st = Some t.

(** An Open state carries the time it opened at. *)
Definition stamped (st : CircuitBreakerState) : Prop :=
  status st = Open -> exists t, openedAt st = Some t.

Section Execute.

(** [W] is the world the wrapped call runs in, [clock] reads the current
    time from it, [E] is the type of failures and [CircuitOpenError] the
    failure the breaker itself raises. *)
Variables (W A E : Type).
Variable clock : W -> Z.
Variable CircuitOpenError : E.

(** A zero-argument asynchronous thunk: from the world it is started in
    to its result, or its failure, and the world it leaves. *)
Definition Thunk := W -> (E + A) * W.

(** Modelled from the spec: the bookkeeping after the call completed,
    one state change per completed call, at the time it completed. *)
Definition settle (st : CircuitBreakerState) (r : E + A) (now : Z) :=
  match r with
  | inr _ => on_success st
  | inl _ => on_failure st now
  end.

(** Modelled from the spec: the contract of [execute(call)].  It fails
    with [CircuitOpenError] without running [call] when the breaker
    rejects; otherwise it runs [call], does the bookkeeping, and hands
    on the thunk's result or its failure unchanged. *)
Definition execute (call : Thunk) (st : CircuitBreakerState) (w : W)
  : (E + A) * CircuitBreakerState * W :=
  match gate st (clock w) with
  | None => (inl CircuitOpenError, st, w)
  | Some st1 =>
      let '(r, w') := call w in
      (r, settle st1 r (clock w'), w')
  end.

(** A run of calls, one after the other, each in the world its
    predecessor left. *)
Fixpoint run (calls : list Thunk) (st : CircuitBreakerState) (w : W)
  : CircuitBreakerState * W :=
  match calls with
  | [] => (st, w)
  | c :: rest =>
      let '(_, st', w') := execute c st w in run rest st' w'
  end.

(** A thunk that fails whatever the world it is started in. *)
Definition failing (call : Thunk) : Prop :=
  forall w, exists e, fst (call w) = inl e.

End Execute.

Arguments settle {A E} st r now.
Arguments execute {W A E} clock CircuitOpenError call st w.
Arguments run {W A E} clock CircuitOpenError calls st w.
Arguments failing {W A E} call.

End Breaker.

(** ** URI templates (handler.js, the read-resource loop)

    [new RegExp(pattern.replace(/\{[^}]+\}/g, '(.+)'))] and
    [regex.test(uri)]. *)

Module Template.

(** *** [pattern.replace(/\{[^}]+\}/g, '(.+)')] *)

Definition lbrace : N := 123.
Definition rbrace : N := 125.

(** Length of the longest prefix without a closing brace, and whether a
    closing brace follows it. *)
Fixpoint run_to_rbrace (s : jsstring) : nat * bool :=
  match s with
  | [] => (0, false)
  | c :: s' =>
      if N.eqb c rbrace then (0, true)
      else let '(n, closed) := run_to_rbrace s' in (S n, closed)
  end.

(** If [s] starts with a match of [\{[^}]+\}], the length of that match. *)
Definition placeholder_length (s : jsstring) : option nat :=
  match s with
  | c :: s' =>
      if N.eqb c lbrace then
        match run_to_rbrace s' with
        | (S n, true) => Some (S n + 2)
        | _ => None
        end
      else None
  | [] => None
  end.

(** The global replace, scanning left to right; [skip] counts the code
    units of the current match still to be dropped. *)
Fixpoint replace_from (skip : nat) (s : jsstring) : jsstring :=
  match s with
  | [] => []
  | c :: s' =>
      match skip with
      | S k => replace_from k s'
      | O =>
          match placeholder_length s with
          | Some n => js "(.+)" ++ replace_from (n - 1) s'
          | None => c :: replace_from 0 s'
          end
      end
  end.

Definition replace_placeholders (pattern : jsstring) : jsstring :=
  replace_from 0 pattern.

(** *** The regular expressions the replacement yields

    The fragment of the pattern language that is modelled: ordinary
    characters, the dot, and the group [(.+)].  A source using any other
    syntax character is outside it. *)

Inductive Tok :=
| Lit (c : N)
| Dot
| Group.

(** [^ $ \ . * + ? ( ) [ ] { } |] *)
Definition syntax_character (c : N) : bool :=
  includes (map (fun x => [x]) (js "^$\.*+?()[]{}|")) [c].

Fixpoint compile (source : jsstring) : option (list Tok) :=
  match source with
  | [] => Some []
  | c :: s1 =>
      if N.eqb c 40 then
        match s1 with
        | d :: p :: r :: s4 =>
            if N.eqb d 46 && N.eqb p 43 && N.eqb r 41
            then option_map (cons Group) (compile s4)
            else None
        | _ => None
        end
      else if N.eqb c 46 then option_map (cons Dot) (compile s1)
      else if syntax_character c then None
      else option_map (cons (Lit c)) (compile s1)
  end.

(** The dot matches every code unit but the line terminators. *)
Definition line_terminator (c : N) : bool :=
  N.eqb c 10 || N.eqb c 13 || N.eqb c 8232 || N.eqb c 8233.

(** The group [(.+)] followed by the rest of the pattern, [rest]: one
    or more code units that are not line terminators.  [.+] is greedy:
    it first tries to take one more code unit, and gives back what it
    took only when the rest of the pattern fails.  [taken] is what the
    group holds so far. *)
Fixpoint plus (rest : jsstring -> option (list jsstring)) (taken s : jsstring)
  : option (list jsstring) :=
  match s with
  | [] => None
  | x :: s' =>
      if line_terminator x then None
      else
        match plus rest (taken ++ [x]) s' with
        | Some caps => Some caps
        | None =>
            match rest s' with
            | Some caps => Some ((taken ++ [x]) :: caps)
            | None => None
            end
        end
  end.

(** Backtracking match of the tokens against a prefix of [s]; the
    result lists what the groups captured. *)
Fixpoint match_here (ts : list Tok) (s : jsstring) : option (list jsstring) :=
  match ts with
  | [] => Some []
  | Lit c :: ts' =>
      match s with
      | x :: s' => if N.eqb x c then match_here ts' s' else None
      | [] => None
      end
  | Dot :: ts' =>
      match s with
      | x :: s' => if line_terminator x then None else match_here ts' s'
      | [] => None
      end
  | Group :: ts' => plus (match_here ts') [] s
  end.

(** [regex.exec(s)] without flags: the leftmost start position at which
    the pattern matches. *)
Fixpoint exec (ts : list Tok) (s : jsstring) : option (list jsstring) :=
  match match_here ts s with
  | Some caps => Some caps
  | None =>
      match s with
      | [] => None
      | _ :: s' => exec ts s'
      end
  end.

(** [regex.test(s)] *)
Definition test (ts : list Tok) (s : jsstring) : bool :=
  match exec ts s with
  | Some _ => true
  | None => false
  end.

(** [new RegExp(pattern.replace(...))] *)
Definition template_regex (pattern : jsstring) : option (list Tok) :=
  compile (replace_placeholders pattern).

(** A continuation that keeps succeeding when text is appended. *)
Definition extends_to (post : jsstring)
           (k k' : jsstring -> option (list jsstring)) : Prop :=
  forall s caps, k s = Some caps -> exists caps', k' (s ++ post) = Some caps'.

(** *** What the specification asks of a match

    Section 4.2 of the specification: placeholders become wildcard
    captures, literal segments exact text, and the whole URI has to
    match from its first to its last code unit.  This definition follows
    those words; it is the yardstick the code's [test] is compared
    with. *)

Inductive Segment :=
| Literal (c : N)
| Placeholder.

Fixpoint spec_segments_from (skip : nat) (s : jsstring) : list Segment :=
  match s with
  | [] => []
  | c :: s' =>
      match skip with
      | S k => spec_segments_from k s'
      | O =>
          match placeholder_length s with
          | Some n => Placeholder :: spec_segments_from (n - 1) s'
          | None => Literal c :: spec_segments_from 0 s'
          end
      end
  end.

(** Anchored match: the segments account for all of [s]; a placeholder
    takes one or more code units. *)
Fixpoint spec_full_match (segs : list Segment) (s : jsstring) : bool :=
  match segs with
  | [] => match s with [] => true | _ => false end
  | Literal c :: segs' =>
      match s with
      | x :: s' => N.eqb x c && spec_full_match segs' s'
      | [] => false
      end
  | Placeholder :: segs' =>
      (fix take (s : jsstring) : bool :=
         match s with
         | [] => false
         | _ :: s' => spec_full_match segs' s' || take s'
         end) s
  end.

Definition spec_matches (pattern uri : jsstring) : bool :=
  spec_full_match (spec_segments_from 0 pattern) uri.

End Template.

(** ** What the dispatch layer is given

    Modules of the repository that are not among the sources at hand
    enter as the fields of two records. *)

Module Env.

(** An entry of the component catalogue, [{name, category}]. *)
Record Component := {
  component_name : jsstring;
  component_category : jsstring
}.

(** The record [getComponentMetadata] resolves to. *)
Record Metadata := {
  metadata_name : jsstring;
  metadata_category : jsstring;
  metadata_description : option jsstring;
  metadata_dependencies : option (list jsstring);
  metadata_props : option (list (jsstring * JSVal));
  metadata_examples : option (list jsstring)
}.

(** utils/validation.js and utils/file-reader.js, with the signatures
    section 6 of the specification gives them: each lookup resolves to
    its result or rejects, and an absent component is a result.
    [zodMessage] is the message zod gives a [ZodError] with the listed
    issues, [stringify] the text [JSON.stringify] produces. *)
Record Collaborators := {
  validateAndSanitizeParams : jsstring -> JSVal -> Thrown + JSVal;
  getComponentSource : jsstring -> Thrown + option jsstring;
  getComponentDemo : jsstring -> Thrown + option jsstring;
  getAvailableComponents : option jsstring -> Thrown + list Component;
  getComponentMetadata : jsstring -> Thrown + option Metadata;
  searchComponents : jsstring -> option jsstring -> Thrown + list Component;
  zodMessage : list (list jsstring * jsstring) -> jsstring;
  stringify : JSVal -> jsstring
}.

(** resources.js and prompts.js.  [resourceHandlers uri] is the value
    the read [resourceHandlers[uri]] finds, when that value is truthy,
    with the outcome of calling it; [resourceTemplateHandlers] lists
    the pairs [Object.entries] enumerates, in its order;
    [circuitOpenMessage] is the message of the breaker's error.
    [engineMessage name argument] is the message the JavaScript engine
    gives the TypeError it throws when the value every object inherits
    under [name] is called with [argument]. *)
Record Registry := {
  resources : JSVal;
  resourceHandlers : jsstring -> option (Thrown + JSVal);
  resourceTemplateHandlers : list (jsstring * (jsstring -> Thrown + JSVal));
  prompts : list (jsstring * JSVal);
  promptHandlers : jsstring -> option (JSVal -> Thrown + JSVal);
  circuitOpenMessage : jsstring;
  engineMessage : jsstring -> JSVal -> jsstring
}.

End Env.
Export Env.

(** ** zod schemas

    The three shapes the tool modules declare, with zod's checks: the
    input has to be a plain object, [z.string()] wants a string,
    [z.enum([...]).optional()] wants [undefined] or one of the listed
    strings.  Every failing field contributes an issue (path and code). *)

Module Zod.

Definition Issue : Type := list jsstring * jsstring.

Definition string_ (path : jsstring) (v : JSVal) : list Issue + jsstring :=
  match v with
  | VStr s => inr s
  | _ => inl [([path], js "invalid_type")]
  end.

Definition enum_optional (allowed : list jsstring) (path : jsstring) (v : JSVal)
  : list Issue + option jsstring :=
  match v with
  | VUndef => inr None
  | VStr s =>
      if includes allowed s then inr (Some s)
      else inl [([path], js "invalid_enum_value")]
  | _ => inl [([path], js "invalid_type")]
  end.

Definition categories : list jsstring :=
  [js "Animations"; js "Backgrounds"; js "Components"; js "TextAnimations"].

(** [z.object({ componentName: z.string() })], the schema of
    get_component, get_component_demo and get_component_metadata. *)
Definition componentNameSchema (v : JSVal) : list Issue + jsstring :=
  match v with
  | VObj fields => string_ (js "componentName") (prop fields (js "componentName"))
  | _ => inl [([], js "invalid_type")]
  end.

(** [z.object({ category: z.enum([...]).optional() })] *)
Definition listComponentsSchema (v : JSVal) : list Issue + option jsstring :=
  match v with
  | VObj fields => enum_optional categories (js "category") (prop fields (js "category"))
  | _ => inl [([], js "invalid_type")]
  end.

(** [z.object({ query: z.string(), category: z.enum([...]).optional() })] *)
Definition searchComponentsSchema (v : JSVal)
  : list Issue + (jsstring * option jsstring) :=
  match v with
  | VObj fields =>
      match string_ (js "query") (prop fields (js "query")),
            enum_optional categories (js "category") (prop fields (js "category")) with
      | inr query, inr category => inr (query, category)
      | inl i, inr _ => inl i
      | inr _, inl j => inl j
      | inl i, inl j => inl (i ++ j)
      end
  | _ => inl [([], js "invalid_type")]
  end.

End Zod.

(** ** The tool handlers *)

Module Tools.

(** [{ type: 'text', text }] *)
Record ContentItem := { type : jsstring; text : jsstring }.

(** [{ content: [...] }] *)
Definition Envelope := list ContentItem.

Definition text_content (s : jsstring) : Envelope :=
  [ {| type := js "text"; text := s |} ].

(** [!value] for a text-or-absent result. *)
Definition absent (r : option jsstring) : bool :=
  match r with
  | Some (_ :: _) => false
  | _ => true
  end.

Definition text_of (r : option jsstring) : jsstring :=
  match r with
  | Some s => s
  | None => []
  end.

(** [acc[key].push(name)] on a key the accumulator owns. *)
Fixpoint push_at (acc : list (jsstring * list jsstring)) (key name : jsstring)
  : list (jsstring * list jsstring) :=
  match acc with
  | [] => []
  | (k, names) :: rest =>
      if str_eqb k key then (k, names ++ [name]) :: rest
      else (k, names) :: push_at rest key name
  end.

(** The [reduce] that groups names by category, starting from [{}].
    Under a key that [{}] inherits, [acc[key]] is truthy and has no
    [push]: the callback throws. *)
Fixpoint group_by_category (acc : list (jsstring * list jsstring))
         (components : list Component)
  : Thrown + list (jsstring * list jsstring) :=
  match components with
  | [] => inr acc
  | c :: rest =>
      let key := component_category c in
      match lookup acc key with
      | Some _ => group_by_category (push_at acc key (component_name c)) rest
      | None =>
          if inherited key
          then inl (TypeError (js "acc[component.category].push is not a function"))
          else group_by_category (acc ++ [(key, [component_name c])]) rest
      end
  end.

(** The loop over [Object.entries(byCategory)] that writes one section
    per category, names sorted. *)
Definition sections (byCategory : list (jsstring * list jsstring)) : jsstring :=
  List.concat (map (fun '(cat, componentNames) =>
                 js "## " ++ cat ++ nl
                 ++ List.concat (map (fun name => js "- " ++ name ++ nl)
                                (JS.sort componentNames))
                 ++ nl)
              (entries byCategory)).

Section Handlers.

Variable env : Collaborators.

Local Open Scope async_scope.

Definition zodError {A} (r : list Zod.Issue + A) : Thrown + A :=
  match r with
  | inr a => inr a
  | inl issues => inl (ErrorObj (js "ZodError") (zodMessage env issues))
  end.

(** The [catch] block the five handlers share but for two strings. *)
Definition user_friendly (where_ prefix : jsstring) (error : Thrown) : H Envelope :=
  logError where_ error ;;;
  ret (text_content (prefix ++ errorMessage error)).

(** *** get_component *)

Definition handleGetComponent_try (params : JSVal) : H Envelope :=
  validatedParams <- await (validateAndSanitizeParams env (js "get_component") params) ;;
  componentName <- await (zodError (Zod.componentNameSchema validatedParams)) ;;
  logInfo (js "Getting component source for: " ++ componentName) ;;;
  sourceCode <- await (getComponentSource env componentName) ;;
  if absent sourceCode
  then throw (Error (js "Component '" ++ componentName ++ js "' not found"))
  else
    logInfo (js "Successfully retrieved component source for: " ++ componentName) ;;;
    ret (text_content (text_of sourceCode)).

Definition handleGetComponent (params : JSVal) : H Envelope :=
  try_catch (handleGetComponent_try params)
            (user_friendly (js "Error in handleGetComponent")
                           (js "Error retrieving component: ")).

(** *** get_component_demo *)

Definition handleGetComponentDemo_try (params : JSVal) : H Envelope :=
  validatedParams <- await (validateAndSanitizeParams env (js "get_component_demo") params) ;;
  componentName <- await (zodError (Zod.componentNameSchema validatedParams)) ;;
  logInfo (js "Getting component demo for: " ++ componentName) ;;;
  demoCode <- await (getComponentDemo env componentName) ;;
  if absent demoCode
  then throw (Error (js "Demo for component '" ++ componentName ++ js "' not found"))
  else
    logInfo (js "Successfully retrieved component demo for: " ++ componentName) ;;;
    ret (text_content (text_of demoCode)).

Definition handleGetComponentDemo (params : JSVal) : H Envelope :=
  try_catch (handleGetComponentDemo_try params)
            (user_friendly (js "Error in handleGetComponentDemo")
                           (js "Error retrieving component demo: ")).

(** *** list_components *)

Definition handleListComponents_try (params : JSVal) : H Envelope :=
  validatedParams <- await (validateAndSanitizeParams env (js "list_components") params) ;;
  category <- await (zodError (Zod.listComponentsSchema validatedParams)) ;;
  logInfo (js "Listing components"
           ++ match category with
              | Some c => js " for category: " ++ c
              | None => []
              end) ;;;
  components <- await (getAvailableComponents env category) ;;
  match components with
  | [] =>
      ret (text_content
             match category with
             | Some c => js "No components found in category '" ++ c ++ js "'"
             | None => js "No components found"
             end)
  | _ :: _ =>
      componentsByCategory <- await (group_by_category [] components) ;;
      let output :=
        js "Available React Bits Components:" ++ nl ++ nl
        ++ sections componentsByCategory
        ++ nl ++ js "Total: " ++ decimal (N.of_nat (List.length components))
        ++ js " components" in
      logInfo (js "Successfully listed "
               ++ decimal (N.of_nat (List.length components)) ++ js " components") ;;;
      ret (text_content output)
  end.

Definition handleListComponents (params : JSVal) : H Envelope :=
  try_catch (handleListComponents_try params)
            (user_friendly (js "Error in handleListComponents")
                           (js "Error listing components: ")).

(** *** get_component_metadata *)

Definition metadata_text (metadata : Metadata) : jsstring :=
  js "# " ++ metadata_name metadata ++ js " Component Metadata" ++ nl ++ nl
  ++ js "**Category:** " ++ metadata_category metadata ++ nl ++ nl
  ++ match metadata_description metadata with
     | Some (c :: d) => js "**Description:** " ++ (c :: d) ++ nl ++ nl
     | _ => []
     end
  ++ match metadata_dependencies metadata with
     | Some (d :: ds) =>
         js "**Dependencies:**" ++ nl
         ++ List.concat (map (fun dep => js "- " ++ dep ++ nl) (d :: ds))
         ++ nl
     | _ => []
     end
  ++ match option_map (@entries JSVal) (metadata_props metadata) with
     | Some (p :: ps) =>
         js "**Props:**" ++ nl
         ++ List.concat (map (fun '(propName, propInfo) =>
                           js "- " ++ propName ++ js ": "
                           ++ match propInfo with
                              | VStr s => s
                              | _ => stringify env propInfo
                              end
                           ++ nl)
                        (p :: ps))
         ++ nl
     | _ => []
     end
  ++ match metadata_examples metadata with
     | Some (e :: es) =>
         js "**Examples:**" ++ nl
         ++ List.concat (map (fun '(index, example) =>
                           decimal (N.of_nat index + 1) ++ js ". " ++ example ++ nl)
                        (combine (seq 0 (List.length (e :: es))) (e :: es)))
         ++ nl
     | _ => []
     end.

Definition handleGetComponentMetadata_try (params : JSVal) : H Envelope :=
  validatedParams <-
    await (validateAndSanitizeParams env (js "get_component_metadata") params) ;;
  componentName <- await (zodError (Zod.componentNameSchema validatedParams)) ;;
  logInfo (js "Getting component metadata for: " ++ componentName) ;;;
  metadata <- await (getComponentMetadata env componentName) ;;
  match metadata with
  | None =>
      throw (Error (js "Metadata for component '" ++ componentName ++ js "' not found"))
  | Some metadata =>
      logInfo (js "Successfully retrieved component metadata for: " ++ componentName) ;;;
      ret (text_content (metadata_text metadata))
  end.

Definition handleGetComponentMetadata (params : JSVal) : H Envelope :=
  try_catch (handleGetComponentMetadata_try params)
            (user_friendly (js "Error in handleGetComponentMetadata")
                           (js "Error retrieving component metadata: ")).

(** *** search_components *)

Definition handleSearchComponents_try (params : JSVal) : H Envelope :=
  validatedParams <- await (validateAndSanitizeParams env (js "search_components") params) ;;
  parsed <- await (zodError (Zod.searchComponentsSchema validatedParams)) ;;
  let '(query, category) := parsed in
  logInfo (js "Searching components with query: " ++ dq ++ query ++ dq
           ++ match category with
              | Some c => js " in category: " ++ c
              | None => []
              end) ;;;
  results <- await (searchComponents env query category) ;;
  match results with
  | [] =>
      ret (text_content
             match category with
             | Some c =>
                 js "No components found matching " ++ dq ++ query ++ dq
                 ++ js " in category '" ++ c ++ js "'"
             | None => js "No components found matching " ++ dq ++ query ++ dq
             end)
  | _ :: _ =>
      resultsByCategory <- await (group_by_category [] results) ;;
      let count := N.of_nat (List.length results) in
      let output :=
        js "Search Results for " ++ dq ++ query ++ dq ++ js ":" ++ nl ++ nl
        ++ sections resultsByCategory
        ++ nl ++ js "Found " ++ decimal count ++ js " matching component"
        ++ (if N.eqb count 1 then [] else js "s") in
      logInfo (js "Search completed: found " ++ decimal count
               ++ js " components matching " ++ dq ++ query ++ dq) ;;;
      ret (text_content output)
  end.

Definition handleSearchComponents (params : JSVal) : H Envelope :=
  try_catch (handleSearchComponents_try params)
            (user_friendly (js "Error in handleSearchComponents")
                           (js "Error searching components: ")).

(** *** tools/index.js: [toolHandlers] *)

Definition toolHandlers : list (jsstring * (JSVal -> H Envelope)) :=
  [ (js "get_component", handleGetComponent);
    (js "get_component_demo", handleGetComponentDemo);
    (js "list_components", handleListComponents);
    (js "get_component_metadata", handleGetComponentMetadata);
    (js "search_components", handleSearchComponents) ].

(** The [try] blocks, under the same names. *)
Definition toolBodies : list (jsstring * (JSVal -> H Envelope)) :=
  [ (js "get_component", handleGetComponent_try);
    (js "get_component_demo", handleGetComponentDemo_try);
    (js "list_components", handleListComponents_try);
    (js "get_component_metadata", handleGetComponentMetadata_try);
    (js "search_components", handleSearchComponents_try) ].

Definition catchTags : list (jsstring * (jsstring * jsstring)) :=
  [ (js "get_component",
     (js "Error in handleGetComponent", js "Error retrieving component: "));
    (js "get_component_demo",
     (js "Error in handleGetComponentDemo", js "Error retrieving component demo: "));
    (js "list_components",
     (js "Error in handleListComponents", js "Error listing components: "));
    (js "get_component_metadata",
     (js "Error in handleGetComponentMetadata", js "Error retrieving component metadata: "));
    (js "search_components",
     (js "Error in handleSearchComponents", js "Error searching components: ")) ].

(** The first two statements of every handler, taken together:
    sanitise, then parse with the tool's schema. *)
Definition validated {A} (name : jsstring) (schema : JSVal -> list Zod.Issue + A)
           (params : JSVal) : Thrown + A :=
  match validateAndSanitizeParams env name params with
  | inl e => inl e
  | inr v => zodError (schema v)
  end.

Definition forget {A} (r : Thrown + A) : Thrown + unit :=
  match r with
  | inl e => inl e
  | inr _ => inr tt
  end.

(** How validation ends for each tool. *)
Definition toolValidation (name : jsstring) (params : JSVal) : option (Thrown + unit) :=
  lookup
    [ (js "get_component",
       forget (validated (js "get_component") Zod.componentNameSchema params));
      (js "get_component_demo",
       forget (validated (js "get_component_demo") Zod.componentNameSchema params));
      (js "list_components",
       forget (validated (js "list_components") Zod.listComponentsSchema params));
      (js "get_component_metadata",
       forget (validated (js "get_component_metadata") Zod.componentNameSchema params));
      (js "search_components",
       forget (validated (js "search_components") Zod.searchComponentsSchema params)) ]
    name.

End Handlers.

(** A computation that, when it returns, returns one text item. *)
Definition shaped (c : H Envelope) : Prop :=
  forall w r w', c w = (inr r, w') -> exists s, r = text_content s.

(** [field] is not a string property of [v]. *)
Definition lacks (field : jsstring) (v : JSVal) : Prop :=
  match v with
  | VObj fields =>
      match prop fields field with
      | VStr _ => False
      | _ => True
      end
  | _ => True
  end.

(** The arguments of a call leave [field] out. *)
Definition omits (field : jsstring) (arguments : JSVal) : Prop :=
  match arguments with
  | VObj fields => prop fields field = VUndef
  | VUndef => True
  | _ => False
  end.

End Tools.

(** ** The dispatcher (handler.js) *)

Module Dispatch.
Import Tools.

(** How a request ends in the model: the handler resolved, it rejected,
    or the run left the modelled part of JavaScript (a template whose
    regular expression is outside the fragment of [Template.compile], a
    call that yields a wrapper object, a request the SDK's schema does
    not let through). *)
Inductive Outcome (A : Type) :=
| Returned (a : A)
| Raised (e : Thrown)
| Beyond.

Arguments Returned {A} a.
Arguments Raised {A} e.
Arguments Beyond {A}.

Definition settled {A} (r : Thrown + A) : Outcome A :=
  match r with
  | inr a => Returned a
  | inl e => Raised e
  end.

Definition mapOutcome {A B} (f : A -> B) (r : Outcome A) : Outcome B :=
  match r with
  | Returned a => Returned (f a)
  | Raised e => Raised e
  | Beyond => Beyond
  end.

(** The state a request runs in: the process-wide breaker
    [circuitBreakers.external] and the world. *)
Record Server := {
  breaker : Breaker.CircuitBreakerState;
  world : World
}.

Definition logged (e : LogEntry) (srv : Server) : Server :=
  {| breaker := breaker srv; world := record e (world srv) |}.

(** What a request resolves to. *)
Inductive Response :=
| ResourceList (resources : JSVal)
| ToolList (tools : list JSVal)
| PromptList (prompts : list JSVal)
| ToolResult (content : Envelope)
| Value (v : JSVal).

(** *** [handleRequest] *)

(** The three log entries [handleRequest] writes. *)
Definition handling (operation : jsstring) (params : JSVal) : LogEntry :=
  LogInfo (js "Handling " ++ operation ++ js " request")
          (Some (VObj [(js "params", params)])).

Definition completed (operation : jsstring) : LogEntry :=
  LogInfo (operation ++ js " completed successfully") None.

Definition failed (operation : jsstring) (error : Thrown) : LogEntry :=
  LogError (js "Error in " ++ operation) error.

Definition handleRequest {A} (operation : jsstring) (params : JSVal)
           (handler : JSVal -> Server -> Outcome A * Server) (srv : Server)
  : Outcome A * Server :=
  match handler params (logged (handling operation params) srv) with
  | (Returned result, srv2) => (Returned result, logged (completed operation) srv2)
  | (Raised error, srv2) => (Raised error, logged (failed operation error) srv2)
  | (Beyond, srv2) => (Beyond, srv2)
  end.

(** *** The list of tools the server announces *)

Definition componentNameProperty : jsstring * JSVal :=
  (js "componentName",
   VObj [ (js "type", VStr (js "string"));
          (js "description",
           VStr (js "Name of the React Bits component (e.g., " ++ dq
                 ++ js "AnimatedList" ++ dq ++ js ", " ++ dq ++ js "BlobCursor"
                 ++ dq ++ js ")")) ]).

Definition categoryProperty (description : jsstring) : jsstring * JSVal :=
  (js "category",
   VObj [ (js "type", VStr (js "string"));
          (js "description", VStr description);
          (js "enum", VArr (map VStr Zod.categories)) ]).

Definition categoryOfComponent : jsstring * JSVal :=
  categoryProperty
    (js "Category of the component (Animations, Backgrounds, Components, TextAnimations)").

Definition categoryFilter : jsstring * JSVal :=
  categoryProperty
    (js "Filter by category (Animations, Backgrounds, Components, TextAnimations)").

Definition descriptor (name description : jsstring)
           (properties : list (jsstring * JSVal)) (required : list jsstring) : JSVal :=
  VObj [ (js "name", VStr name);
         (js "description", VStr description);
         (js "inputSchema",
          VObj ([ (js "type", VStr (js "object"));
                  (js "properties", VObj properties) ]
                ++ match required with
                   | [] => []
                   | _ => [(js "required", VArr (map VStr required))]
                   end)) ].

Definition registeredTools : list JSVal :=
  [ descriptor (js "get_component")
      (js "Get the source code for a specific React Bits component")
      [componentNameProperty; categoryOfComponent] [js "componentName"];
    descriptor (js "get_component_demo")
      (js "Get demo code illustrating how a React Bits component should be used")
      [componentNameProperty; categoryOfComponent] [js "componentName"];
    descriptor (js "list_components")
      (js "Get all available React Bits components")
      [categoryFilter] [];
    descriptor (js "get_component_metadata")
      (js "Get metadata for a specific React Bits component")
      [componentNameProperty; categoryOfComponent] [js "componentName"];
    descriptor (js "search_components")
      (js "Search for React Bits components by name or functionality")
      [ (js "query",
         VObj [ (js "type", VStr (js "string"));
                (js "description",
                 VStr (js "Search query (e.g., " ++ dq ++ js "animation" ++ dq
                       ++ js ", " ++ dq ++ js "cursor" ++ dq ++ js ", " ++ dq
                       ++ js "text" ++ dq ++ js ")")) ]);
        categoryFilter ]
      [js "query"] ].

(** The descriptor announced under a name. *)
Definition descriptorOf (name : jsstring) : option JSVal :=
  find (fun d => match d with
                 | VObj fields =>
                     match prop fields (js "name") with
                     | VStr n => str_eqb n name
                     | _ => false
                     end
                 | _ => false
                 end) registeredTools.



(** The fields of the schema a descriptor declares as required. *)
Definition requiredFields (d : JSVal) : list jsstring :=
  match d with
  | VObj fields =>
      match prop fields (js "inputSchema") with
      | VObj schema =>
          match prop schema (js "required") with
          | VArr items =>
              flat_map (fun i => match i with VStr s => [s] | _ => [] end) items
          | _ => []
          end
      | _ => []
      end
  | _ => []
  end.

Section Handlers.

Variable env : Collaborators.
Variable reg : Registry.

(** The error the breaker rejects with. *)
Definition CircuitOpenError : Thrown :=
  ErrorObj (js "CircuitOpenError") (circuitOpenMessage reg).

(** The read-resource loop over [Object.entries(resourceTemplateHandlers)]. *)
Fixpoint scanTemplates (templates : list (jsstring * (jsstring -> Thrown + JSVal)))
         (uri : jsstring) : Outcome JSVal :=
  match templates with
  | [] => Raised (Error (js "Resource not found: " ++ uri))
  | (pattern, handler) :: rest =>
      match Template.template_regex pattern with
      | None => Beyond
      | Some regex =>
          if Template.test regex uri then settled (handler uri)
          else scanTemplates rest uri
      end
  end.

Definition readResource (validatedParams : JSVal) (srv : Server)
  : Outcome Response * Server :=
  match validatedParams with
  | VObj fields =>
      match prop fields (js "uri") with
      | VStr uri =>
          match resourceHandlers reg uri with
          | Some result => (mapOutcome Value (settled result), srv)
          | None =>
              (mapOutcome Value (scanTemplates (resourceTemplateHandlers reg) uri), srv)
          end
      | _ => (Beyond, srv)
      end
  | _ => (Beyond, srv)
  end.

Definition getPrompt (validatedParams : JSVal) (srv : Server)
  : Outcome Response * Server :=
  match validatedParams with
  | VObj fields =>
      match prop fields (js "name") with
      | VStr name =>
          match promptHandlers reg name with
          | None => (Raised (Error (js "Prompt not found: " ++ name)), srv)
          | Some promptHandler =>
              (mapOutcome Value (settled (promptHandler (prop fields (js "arguments")))),
               srv)
          end
      | _ => (Beyond, srv)
      end
  | _ => (Beyond, srv)
  end.

(** [params || {}] *)
Definition orEmptyObject (params : JSVal) : JSVal :=
  if truthy params then params else VObj [].

Definition isObject (v : JSVal) : bool :=
  match v with
  | VObj _ | VArr _ => true
  | _ => false
  end.

(** [handler(argument)] when [handler] is the value [toolHandlers[name]]
    finds on [Object.prototype].  handler.js is a module, hence strict
    code, and [handler] is called as a plain function: [this] is
    undefined.  [constructor] is [Object], which hands an object back
    (and wraps a primitive: [None]); [toString] answers for the
    undefined receiver; [isPrototypeOf] answers [false] to a primitive
    before it looks at its receiver; [__proto__] is an object and not
    callable, and the other functions convert their undefined receiver
    to an object: these throw a TypeError. *)
Definition inheritedCall (name : jsstring) (argument : JSVal)
  : option (Thrown + JSVal) :=
  if str_eqb name (js "constructor") then
    if isObject argument then Some (inr argument) else None
  else if str_eqb name (js "toString") then
    Some (inr (VStr (js "[object Undefined]")))
  else if str_eqb name (js "isPrototypeOf") && negb (isObject argument) then
    Some (inr (VBool false))
  else Some (inl (TypeError (engineMessage reg name argument))).

(** [toolHandlers[name]] is truthy: the table lists the name or
    inherits it. *)
Definition callable (name : jsstring) : bool :=
  match lookup (toolHandlers env) name with
  | Some _ => true
  | None => inherited name
  end.

Definition callTool (validatedParams : JSVal) (srv : Server)
  : Outcome Response * Server :=
  match validatedParams with
  | VObj fields =>
      let params := prop fields (js "arguments") in
      match prop fields (js "name") with
      | VStr (c :: name') =>
          let name := c :: name' in
          match lookup (toolHandlers env) name with
          | None =>
              if inherited name then
                match inheritedCall name (orEmptyObject params) with
                | None => (Beyond, srv)
                | Some answer =>
                    let '(result, breaker', world') :=
                      Breaker.execute now CircuitOpenError (await answer)
                                      (breaker srv) (world srv) in
                    (mapOutcome Value (settled result),
                     {| breaker := breaker'; world := world' |})
                end
              else (Raised (Error (js "Tool not found: " ++ name)), srv)
          | Some handler =>
              let '(result, breaker', world') :=
                Breaker.execute now CircuitOpenError
                                (handler (orEmptyObject params))
                                (breaker srv) (world srv) in
              (mapOutcome ToolResult (settled result),
               {| breaker := breaker'; world := world' |})
          end
      | _ => (Raised (Error (js "Tool name is required")), srv)
      end
  | _ => (Beyond, srv)
  end.

(** *** [setupHandlers]: one handler per request schema *)

Inductive Method :=
| ListResources
| ListResourceTemplates
| ListTools
| ReadResource
| ListPrompts
| GetPrompt
| CallTool.

Record Request := { method : Method; params : JSVal }.

Definition operationName (m : Method) : jsstring :=
  match m with
  | ListResources => js "list_resources"
  | ListResourceTemplates => js "list_resource_templates"
  | ListTools => js "list_tools"
  | ReadResource => js "read_resource"
  | ListPrompts => js "list_prompts"
  | GetPrompt => js "get_prompt"
  | CallTool => js "call_tool"
  end.

(** The function each request handler passes to [handleRequest].
    handler.js never declares or imports [resourceTemplates]: evaluating
    that name throws. *)
Definition requestHandler (m : Method) : JSVal -> Server -> Outcome Response * Server :=
  match m with
  | ListResources => fun _ srv => (Returned (ResourceList (resources reg)), srv)
  | ListResourceTemplates =>
      fun _ srv => (Raised (ReferenceError (js "resourceTemplates is not defined")), srv)
  | ListTools => fun _ srv => (Returned (ToolList registeredTools), srv)
  | ReadResource => readResource
  | ListPrompts => fun _ srv => (Returned (PromptList (map snd (entries (prompts reg)))), srv)
  | GetPrompt => getPrompt
  | CallTool => callTool
  end.

Definition serve (request : Request) (srv : Server) : Outcome Response * Server :=
  handleRequest (operationName (method request)) (params request)
                (requestHandler (method request)) srv.

End Handlers.


(** *** The kinds of request the propagation policy distinguishes *)


End Dispatch.

(** ** Start-up (the entry script) *)

Module Startup.
Import Dispatch.

Definition lines (ls : list jsstring) : jsstring :=
  List.concat (map (fun l => l ++ nl) ls).

(** The text [--help] prints. *)
Definition helpText : jsstring :=
  nl ++ lines
  [ js "React Bits MCP Server";
    [];
    js "Usage:";
    js "  npx react-bits-mcp-server [options]";
    [];
    js "Options:";
    js "  --github-api-key, -g <token>    GitHub Personal Access Token for API access";
    js "  --help, -h                      Show this help message";
    js "  --version, -v                   Show version information";
    [];
    js "Examples:";
    js "  npx react-bits-mcp-server";
    js "  npx react-bits-mcp-server --github-api-key ghp_your_token_here";
    js "  npx react-bits-mcp-server -g ghp_your_token_here";
    [];
    js "Environment Variables:";
    js "  GITHUB_PERSONAL_ACCESS_TOKEN    Alternative way to provide GitHub token";
    js "  LOG_LEVEL                       Log level (debug, info, warn, error) - default: info";
    [];
    js "For more information, visit: https://github.com/react-bits/react-bits" ].

(** What the process finds around it: [process.argv.slice(2)], the
    environment variable, the version read from the package file (or
    the failure to read it), and how [server.connect] ends. *)
Record Process := {
  args : list jsstring;
  GITHUB_PERSONAL_ACCESS_TOKEN : option jsstring;
  packageVersion : Thrown + jsstring;
  connect : Thrown + unit
}.

Inductive Parsed :=
| Exit (code : Z) (printed : jsstring)
| Options (githubApiKey : option jsstring).

Definition isKeyFlag (arg : jsstring) : bool :=
  str_eqb arg (js "--github-api-key") || str_eqb arg (js "-g").

(** [args[args.findIndex(isKeyFlag) + 1]], when the flag is there and
    an argument follows it. *)
Fixpoint afterKeyFlag (args : list jsstring) : option jsstring :=
  match args with
  | [] => None
  | a :: rest =>
      if isKeyFlag a then
        match rest with
        | v :: _ => Some v
        | [] => None
        end
      else afterKeyFlag rest
  end.

Definition nonEmpty (s : option jsstring) : option jsstring :=
  match s with
  | Some (c :: s') => Some (c :: s')
  | _ => None
  end.

Definition parseArgs (p : Process) : Parsed :=
  if includes (args p) (js "--help") || includes (args p) (js "-h") then
    Exit 0 helpText
  else if includes (args p) (js "--version") || includes (args p) (js "-v") then
    Exit 0 (match packageVersion p with
            | inr version => js "react-bits-mcp-server v" ++ version
            | inl _ => js "react-bits-mcp-server v1.0.0"
            end)
  else
    match nonEmpty (afterKeyFlag (args p)) with
    | Some key => Options (Some key)
    | None => Options (nonEmpty (GITHUB_PERSONAL_ACCESS_TOKEN p))
    end.

(** How [main] ends: the process exits, or the server is connected and
    answers requests with [answer].  [startupLog] is most recent entry
    first. *)
Inductive Started :=
| Exited (code : Z) (printed : jsstring) (startupLog : list LogEntry)
| Serving (answer : Request -> Server -> Outcome Response * Server)
          (startupLog : list LogEntry).

Definition info (message : string) : LogEntry := LogInfo (js message) None.

(** [main].  The [Server] object is built from constants (name, version
    and the capabilities literal) and [setupHandlers] registers the
    handlers of [Dispatch]; neither is given the key. *)
Definition main (env : Collaborators) (reg : Registry) (p : Process) : Started :=
  let log0 := [info "Starting React Bits MCP Server..."] in
  match parseArgs p with
  | Exit code printed => Exited code printed log0
  | Options githubApiKey =>
      let log1 :=
        match githubApiKey with
        | Some _ =>
            info "GitHub API key provided (not used for file-based operations)" :: log0
        | None => log0
        end in
      let log2 :=
        info "Transport initialized: stdio"
        :: info "Handlers setup complete"
        :: info "Setting up request handlers..." :: log1 in
      match connect p with
      | inr _ => Serving (serve env reg) (info "Server started successfully" :: log2)
      | inl error =>
          Exited 1 [] (LogError (js "Failed to start server") error :: log2)
      end
  end.

(** What a start-up comes to, the log left aside. *)
Definition behaviour (s : Started)
  : Z * jsstring + (Request -> Server -> Outcome Response * Server) :=
  match s with
  | Exited code printed _ => inl (code, printed)
  | Serving answer _ => inr answer
  end.

Definition startupLog (s : Started) : list LogEntry :=
  match s with
  | Exited _ _ l => l
  | Serving _ l => l
  end.

(** One of [--help], [-h], [--version], [-v] is among the arguments. *)
Definition asksForHelpOrVersion (p : Process) : bool :=
  includes (args p) (js "--help") || includes (args p) (js "-h")
  || includes (args p) (js "--version") || includes (args p) (js "-v").

(** The entry [main] logs when a credential was given. *)
Definition credentialNote : LogEntry :=
  info "GitHub API key provided (not used for file-based operations)".

Definition isCredentialNote (e : LogEntry) : bool :=
  match e with
  | LogInfo message None =>
      str_eqb message (js "GitHub API key provided (not used for file-based operations)")
  | _ => false
  end.

(** The log without the note. *)
Definition withoutCredentialNote (l : list LogEntry) : list LogEntry :=
  filter (fun e => negb (isCredentialNote e)) l.

End Startup.

(** ** A small installation, for the concrete scenarios *)

Module Sample.
Import Dispatch.

(** A catalogue of two components; the sanitiser passes its input on. *)
Definition catalogue : list Component :=
  [ {| component_name := js "ProfileCard"; component_category := js "Components" |};
    {| component_name := js "AnimatedList"; component_category := js "Components" |} ].

Definition collaborators : Collaborators := {|
  validateAndSanitizeParams := fun _ params => inr params;
  getComponentSource := fun name =>
    if str_eqb name (js "AnimatedList")
    then inr (Some (js "export default function AnimatedList() {}"))
    else inr None;
  getComponentDemo := fun _ => inr None;
  getAvailableComponents := fun _ => inr catalogue;
  getComponentMetadata := fun _ => inr None;
  searchComponents := fun _ _ => inr [];
  zodMessage := fun _ => js "Required";
  stringify := fun _ => js "{}"
|}.


Definition componentTemplate : jsstring := js "resource:component/{name}".

(** One static resource and one template, whose handler answers with
    the URI it was given. *)
Definition registry : Registry := {|
  resources := VArr [VObj [(js "uri", VStr (js "resource:get_components"))]];
  resourceHandlers := fun uri =>
    if str_eqb uri (js "resource:get_components")
    then Some (inr (VStr (js "AnimatedList, ProfileCard")))
    else None;
  resourceTemplateHandlers := [(componentTemplate, fun uri => inr (VStr uri))];
  prompts := [];
  promptHandlers := fun _ => None;
  circuitOpenMessage := js "Circuit breaker is open";
  engineMessage := fun _ _ => js "Cannot convert undefined or null to object"
|}.

Definition start : World := {| now := 0; log := [] |}.

(** A server whose breaker is closed, and one whose breaker opened at
    time 0 with a reset timeout of 30 seconds, asked at time 10. *)
Definition closedServer : Server :=
  {| breaker := Breaker.initial 5 30000; world := start |}.

Definition openServer : Server :=
  {| breaker := {| Breaker.status := Breaker.Open;
                   Breaker.consecutiveFailures := 5;
                   Breaker.openedAt := Some 0%Z;
                   Breaker.failureThreshold := 5;
                   Breaker.resetTimeout := 30000 |};
     world := {| now := 10; log := [] |} |}.

Definition readOf (uri : jsstring) : Request :=
  {| method := ReadResource; params := VObj [(js "uri", VStr uri)] |}.

Definition callOf (name : jsstring) (arguments : JSVal) : Request :=
  {| method := CallTool;
     params := VObj [(js "name", VStr name); (js "arguments", arguments)] |}.


(** A breaker over a world that is just the clock, with string
    failures, and thunks that fail or succeed without taking time. *)
Definition failingThunk : Breaker.Thunk Z jsstring jsstring :=
  fun w => (inl (js "boom"), w).

Definition succeedingThunk : Breaker.Thunk Z jsstring jsstring :=
  fun w => (inr (js "ok"), w).

Definition circuitOpen : jsstring := js "CircuitOpenError".

Definition runOnClock := @Breaker.run Z jsstring jsstring (fun w => w) circuitOpen.
Definition executeOnClock := @Breaker.execute Z jsstring jsstring (fun w => w) circuitOpen.

Definition plainProcess : Startup.Process :=
  {| Startup.args := []; Startup.GITHUB_PERSONAL_ACCESS_TOKEN := None;
     Startup.packageVersion := inr (js "1.0.0"); Startup.connect := inr tt |}.

Definition keyedProcess : Startup.Process :=
  {| Startup.args := [js "-g"; js "ghp_token"];
     Startup.GITHUB_PERSONAL_ACCESS_TOKEN := Some (js "ghp_other");
     Startup.packageVersion := inr (js "1.0.0"); Startup.connect := inr tt |}.

(** As [keyedProcess], with a credential whose value is [--help]. *)
Definition flagAsCredential : Startup.Process :=
  {| Startup.args := [js "-g"; js "--help"];
     Startup.GITHUB_PERSONAL_ACCESS_TOKEN := Some (js "ghp_other");
     Startup.packageVersion := inr (js "1.0.0"); Startup.connect := inr tt |}.

Definition tokenInEnvironment : Startup.Process :=
  {| Startup.args := [];
     Startup.GITHUB_PERSONAL_ACCESS_TOKEN := Some (js "ghp_other");
     Startup.packageVersion := inr (js "1.0.0"); Startup.connect := inr tt |}.

End Sample.

(** ** Further notions used by the properties *)

From Stdlib Require Import Sorted Permutation.

Module Matching.
Import Template.

(** No character of the regular-expression syntax (braces and the dot
    included): a template that is plain text. *)
Definition plain (pattern : jsstring) : bool :=
  forallb (fun c => negb (syntax_character c)) pattern.

(** No opening parenthesis in the template's own text. *)
Definition parenFree (pattern : jsstring) : bool :=
  forallb (fun c => negb (N.eqb c 40)) pattern.

(** No line terminator. *)
Definition oneLine (s : jsstring) : bool :=
  forallb (fun c => negb (line_terminator c)) s.

(** The number of groups of a compiled expression. *)
Definition groups (regex : list Tok) : nat :=
  List.length (filter (fun t => match t with Group => true | _ => false end) regex).

(** The number of placeholders the replacement finds in a template. *)
Definition placeholders (pattern : jsstring) : nat :=
  List.length (filter (fun s => match s with Placeholder => true | _ => false end)
                      (spec_segments_from 0 pattern)).

(** What a group may hold: at least one code unit, none of them a line
    terminator. *)
Definition capture (c : jsstring) : Prop :=
  c <> [] /\ oneLine c = true.

End Matching.

Module Grouping.
Import Tools.

(** The names of the components of one category, in catalogue order. *)
Definition namesIn (category : jsstring) (components : list Component) : list jsstring :=
  map component_name
      (filter (fun c => str_eqb (component_category c) category) components).

(** No component's category is a name that [{}] inherits. *)
Definition groupable (components : list Component) : bool :=
  forallb (fun c => negb (inherited (component_category c))) components.

(** An accumulator of the grouping: its keys are distinct and none is
    inherited. *)
Definition tidy (acc : list (jsstring * list jsstring)) : Prop :=
  NoDup (map fst acc) /\ Forall (fun kv => inherited (fst kv) = false) acc.

(** [a <= b] in code-unit order. *)
Definition str_leb (a b : jsstring) : bool := negb (str_ltb b a).

(** [key] is among the keys seen so far. *)
Definition known (seen : list jsstring) (key : jsstring) : bool :=
  existsb (fun s => str_eqb s key) seen.

(** The keys in the order of their first appearance, after those
    already seen. *)
Fixpoint firstSeen (seen keys : list jsstring) : list jsstring :=
  match keys with
  | [] => seen
  | k :: rest => firstSeen (if known seen k then seen else seen ++ [k]) rest
  end.

(** No category reads as an array index. *)
Definition unnumbered (components : list Component) : Prop :=
  forall c, In c components -> array_index (component_category c) = None.

End Grouping.

Module Ordering.

(** Ascending in code-unit order: no element is greater than a later one. *)
Definition ascending (l : list jsstring) : Prop :=
  StronglySorted (fun a b => str_ltb b a = false) l.

End Ordering.

Module Lookups.
Import Tools.

(** A category the schemas of list_components and search_components
    let through: none, or one of the four labels. *)
Definition permitted (category : option jsstring) : bool :=
  match category with
  | None => true
  | Some c => includes Zod.categories c
  end.

(** The collaborators with another catalogue behind
    [getAvailableComponents]. *)
Definition withCatalogue (env : Collaborators)
           (catalogue : option jsstring -> Thrown + list Component) : Collaborators :=
  {| validateAndSanitizeParams := validateAndSanitizeParams env;
     getComponentSource := getComponentSource env;
     getComponentDemo := getComponentDemo env;
     getAvailableComponents := catalogue;
     getComponentMetadata := getComponentMetadata env;
     searchComponents := searchComponents env;
     zodMessage := zodMessage env;
     stringify := stringify env |}.

(** The collaborators with another index behind [searchComponents]. *)
Definition withSearch (env : Collaborators)
           (index : jsstring -> option jsstring -> Thrown + list Component)
  : Collaborators :=
  {| validateAndSanitizeParams := validateAndSanitizeParams env;
     getComponentSource := getComponentSource env;
     getComponentDemo := getComponentDemo env;
     getAvailableComponents := getAvailableComponents env;
     getComponentMetadata := getComponentMetadata env;
     searchComponents := index;
     zodMessage := zodMessage env;
     stringify := stringify env |}.

(** The three handlers whose schema is [{ componentName: z.string() }]. *)
Definition byComponentName (env : Collaborators)
  : list (jsstring * (JSVal -> H Envelope)) :=
  [ (js "get_component", handleGetComponent env);
    (js "get_component_demo", handleGetComponentDemo env);
    (js "get_component_metadata", handleGetComponentMetadata env) ].

(** A catalogue that fails on every category the schemas reject. *)
Definition guardedCatalogue (category : option jsstring) : Thrown + list Component :=
  if permitted category then getAvailableComponents Sample.collaborators category
  else inl (Error (js "unexpected category")).

Definition guardedSearch (query : jsstring) (category : option jsstring)
  : Thrown + list Component :=
  if permitted category then searchComponents Sample.collaborators query category
  else inl (Error (js "unexpected category")).

(** An installation with a component filed under [constructor]. *)
Definition oddCatalogue : Collaborators :=
  withCatalogue Sample.collaborators
    (fun _ => inr [ {| component_name := js "ProfileCard";
                       component_category := js "Components" |};
                    {| component_name := js "Widget";
                       component_category := js "constructor" |} ]).

(** An installation whose source files are all empty. *)
Definition blankFiles : Collaborators :=
  {| validateAndSanitizeParams := validateAndSanitizeParams Sample.collaborators;
     getComponentSource := fun _ => inr (Some []);
     getComponentDemo := getComponentDemo Sample.collaborators;
     getAvailableComponents := getAvailableComponents Sample.collaborators;
     getComponentMetadata := getComponentMetadata Sample.collaborators;
     searchComponents := searchComponents Sample.collaborators;
     zodMessage := zodMessage Sample.collaborators;
     stringify := stringify Sample.collaborators |}.

End Lookups.

Module Traffic.
Import Tools Dispatch.

(** Requests served one after the other, each by the server its
    predecessor left. *)
Definition serveAll (env : Collaborators) (reg : Registry)
           (requests : list Request) (srv : Server) : Server :=
  fold_left (fun s request => snd (serve env reg request s)) requests srv.

(** A call-tool request whose name is one that every object inherits. *)
Definition namesInherited (request : Request) : bool :=
  match method request, params request with
  | CallTool, VObj fields =>
      match prop fields (js "name") with
      | VStr name => inherited name
      | _ => false
      end
  | _, _ => false
  end.


(** The sample registry with one prompt added, whose handler answers
    with its arguments. *)
Definition promptRegistry : Registry := {|
  resources := resources Sample.registry;
  resourceHandlers := resourceHandlers Sample.registry;
  resourceTemplateHandlers := resourceTemplateHandlers Sample.registry;
  prompts := [(js "component_usage", VObj [(js "name", VStr (js "component_usage"))])];
  promptHandlers := fun name =>
    if str_eqb name (js "component_usage") then Some (fun arguments => inr arguments)
    else None;
  circuitOpenMessage := circuitOpenMessage Sample.registry;
  engineMessage := engineMessage Sample.registry
|}.

(** A request of each kind that the sample installation can answer. *)
Definition sampleParams (m : Method) : JSVal :=
  match m with
  | ReadResource => VObj [(js "uri", VStr (js "resource:get_components"))]
  | GetPrompt => VObj [(js "name", VStr (js "component_usage"))]
  | CallTool => VObj [(js "name", VStr (js "list_components"))]
  | _ => VUndef
  end.

(** The names the descriptors of a list announce, in order. *)
Definition announcedNames (descriptors : list JSVal) : list jsstring :=
  flat_map (fun d => match d with
                     | VObj fields =>
                         match prop fields (js "name") with
                         | VStr n => [n]
                         | _ => []
                         end
                     | _ => []
                     end) descriptors.

(** A computation whose result does not depend on the world it is
    started in. *)
Definition oblivious {A} (c : H A) : Prop :=
  forall w1 w2, fst (c w1) = fst (c w2).

(** The call-tool request for [name] with [arguments]. *)
Definition call (name : jsstring) (arguments : JSVal) : Request :=
  {| method := CallTool;
     params := VObj [(js "name", VStr name); (js "arguments", arguments)] |}.

(** The message of the error a call-tool request with an unusable name
    is refused with. *)
Definition nameError (name : JSVal) : jsstring :=
  match name with
  | VStr (c :: rest) => js "Tool not found: " ++ c :: rest
  | _ => js "Tool name is required"
  end.

(** The name of a call-tool request resolves to no handler. *)
Definition unresolved (env : Collaborators) (name : JSVal) : Prop :=
  match name with
  | VStr (c :: rest) =>
      lookup (toolHandlers env) (c :: rest) = None /\ inherited (c :: rest) = false
  | _ => True
  end.

End Traffic.

(** ** The schemas of [getToolSchema] (handler.js)

    [getToolSchema] is declared in handler.js and called nowhere.  Its
    [try] block only builds zod objects, which does not throw, so the
    [catch] block is left out. *)

Module DispatcherSchemas.

(** What a schema of [getToolSchema] parses its input to. *)
Inductive Parsed :=
| ComponentParams (componentName : jsstring) (category : option jsstring)
| SearchParams (query : jsstring) (category : option jsstring)
| ListParams (category : option jsstring).









End DispatcherSchemas.

(** ** Further notions of the start-up *)

Module StartupMore.
Import Startup.

(** None of the arguments is the key flag. *)
Definition keyFlagFree (args : list jsstring) : bool :=
  forallb (fun a => negb (isKeyFlag a)) args.

(** The value the first key flag is followed by, when it is not empty. *)
Definition valueIn (rest : list jsstring) : option jsstring :=
  match rest with
  | (c :: value) :: _ => Some (c :: value)
  | _ => None
  end.

(** What [--version] prints. *)
Definition versionText (p : Process) : jsstring :=
  match packageVersion p with
  | inr version => js "react-bits-mcp-server v" ++ version
  | inl _ => js "react-bits-mcp-server v1.0.0"
  end.

Definition asksForHelp (p : Process) : bool :=
  includes (args p) (js "--help") || includes (args p) (js "-h").

(** The help flag in the place of the key. *)
Definition helpAsKey : Process :=
  {| args := [js "--version"; js "-g"; js "-h"];
     GITHUB_PERSONAL_ACCESS_TOKEN := None;
     packageVersion := inr (js "1.0.0");
     connect := inr tt |}.

(** Two key flags, the second of which is not looked at. *)
Definition twiceKeyed : Process :=
  {| args := [js "--verbose"; js "-g"; js "first"; js "--github-api-key"; js "second"];
     GITHUB_PERSONAL_ACCESS_TOKEN := Some (js "ghp_other");
     packageVersion := inr (js "1.0.0");
     connect := inr tt |}.

(** A key flag with nothing behind it. *)
Definition danglingFlag : Process :=
  {| args := [js "-g"];
     GITHUB_PERSONAL_ACCESS_TOKEN := Some (js "ghp_other");
     packageVersion := inr (js "1.0.0");
     connect := inr tt |}.

End StartupMore.

(** * Properties *)

(** ** Strings *)

Lemma str_eqb_spec (a b : jsstring) : str_eqb a b = true <-> a = b.
Proof.
  revert b; induction a as [|x a IH]; intros [|y b]; simpl;
    try (split; [discriminate | congruence]); [tauto|].
  rewrite andb_true_iff, N.eqb_eq, IH. split.
  - intros [-> ->]; reflexivity.
  - intros E; inversion E; auto.
Qed.

Lemma str_eqb_refl (a : jsstring) : str_eqb a a = true.
Proof. apply str_eqb_spec; reflexivity. Qed.

(** ** The circuit breaker *)

Module BreakerFacts.
Import Breaker.

Section Execute.

Variables (W A E : Type).
Variable clock : W -> Z.
Variable CircuitOpenError : E.

Local Abbreviation Thunk := (Thunk W A E).
Local Abbreviation execute := (@execute W A E clock CircuitOpenError).
Local Abbreviation run := (@run W A E clock CircuitOpenError).
Local Abbreviation failing := (@failing W A E).

Lemma execute_keeps_constants call st w :
  let st' := snd (fst (execute call st w)) in
  failureThreshold st' = failureThreshold st /\
  resetTimeout st' = resetTimeout st.
Proof.
  unfold execute, gate. destruct (status st) eqn:S.
  - destruct (call w) as [[e|a] w']; simpl; unfold on_failure; rewrite ?S; auto.
    destruct (_ <=? _)%N; simpl; auto.
  - destruct (elapsed st (clock w)); simpl; auto.
    destruct (call w) as [[e|a] w']; simpl; auto.
  - destruct (call w) as [[e|a] w']; simpl; unfold on_failure; rewrite ?S; auto.
Qed.

(** The transient HalfOpen status is never left behind by a completed
    call that entered in Closed or Open. *)
Lemma execute_settles call st w :
  status st <> HalfOpen ->
  status (snd (fst (execute call st w))) <> HalfOpen.
Proof.
  intros H. unfold execute, gate. destruct (status st) eqn:S; [| |congruence].
  - destruct (call w) as [[e|a] w']; simpl; [|discriminate].
    unfold on_failure; rewrite S.
    destruct (_ <=? _)%N; simpl; congruence.
  - destruct (elapsed st (clock w)); simpl; [|congruence].
    destruct (call w) as [[e|a] w']; simpl; discriminate.
Qed.

(** An Open state always carries the time it opened at. *)
Lemma execute_keeps_stamp call st w :
  stamped st -> stamped (snd (fst (execute call st w))).
Proof.
  intros H. unfold execute, gate. destruct (status st) eqn:S.
  - destruct (call w) as [[e|a] w']; simpl; [|intros D; discriminate D].
    unfold on_failure; rewrite S.
    destruct (_ <=? _)%N; unfold stamped; simpl; eauto; congruence.
  - destruct (elapsed st (clock w)); simpl; auto.
    destruct (call w) as [[e|a] w']; unfold stamped; simpl; eauto; discriminate.
  - destruct (call w) as [[e|a] w']; unfold stamped; simpl.
    + unfold on_failure; rewrite S; simpl; eauto.
    + discriminate.
Qed.

Lemma tripped_stays call st w :
  failing call -> tripped st -> tripped (snd (fst (execute call st w))).
Proof.
  intros F [S [t T]]. unfold execute, gate. rewrite S.
  destruct (elapsed st (clock w)); [|split; eauto].
  destruct (F w) as [e], (call w) as [r w']; simpl in *; subst r; simpl.
  unfold tripped, on_failure; simpl; eauto.
Qed.

Lemma closed_failure call st w :
  failing call -> status st = Closed ->
  let st' := snd (fst (execute call st w)) in
  consecutiveFailures st' = (consecutiveFailures st + 1)%N /\
  failureThreshold st' = failureThreshold st /\
  (((failureThreshold st <=? consecutiveFailures st + 1)%N = true /\ tripped st') \/
   ((failureThreshold st <=? consecutiveFailures st + 1)%N = false /\
    status st' = Closed)).
Proof.
  intros F S. unfold execute, gate. rewrite S.
  destruct (F w) as [e], (call w) as [r w']; simpl in *; subst r; simpl.
  unfold on_failure. rewrite S.
  destruct (_ <=? _)%N eqn:C; simpl; repeat split; auto.
  left; unfold tripped; simpl; eauto.
Qed.

Lemma run_tripped calls : forall st w,
  Forall failing calls -> tripped st -> tripped (fst (run calls st w)).
Proof.
  induction calls as [|c calls IH]; intros st w F T; simpl; auto.
  pose proof (Forall_inv F) as Fc. pose proof (Forall_inv_tail F) as Fr.
  pose proof (tripped_stays c st w Fc T) as T'.
  destruct (execute c st w) as [[r st'] w']; simpl in *. auto.
Qed.

Lemma run_closed calls : forall st w,
  Forall failing calls -> status st = Closed ->
  calls <> [] ->
  (failureThreshold st <= consecutiveFailures st + N.of_nat (List.length calls))%N ->
  tripped (fst (run calls st w)).
Proof.
  induction calls as [|c calls IH]; intros st w F S NE Hle; [congruence|].
  pose proof (Forall_inv F) as Fc. pose proof (Forall_inv_tail F) as Fr. simpl.
  pose proof (closed_failure c st w Fc S) as (Hc & Ht & Hcase).
  destruct (execute c st w) as [[r st'] w']; simpl in *.
  destruct Hcase as [[_ T]|[C S']].
  - apply run_tripped; auto.
  - destruct calls as [|c' calls'].
    + simpl in Hle. apply N.leb_gt in C. lia.
    + apply IH; auto; [discriminate|].
      rewrite Ht, Hc. simpl List.length in *. lia.
Qed.

Lemma failing_firstn (n : nat) (calls : list Thunk) :
  Forall failing calls -> Forall failing (firstn n calls).
Proof.
  intros F. revert n. induction F as [|c calls Fc _ IH]; intros [|n]; cbn [firstn];
    constructor; auto.
Qed.

(** Below the threshold the breaker stays Closed and counts. *)
Lemma run_below calls : forall st w,
  Forall failing calls -> status st = Closed ->
  (consecutiveFailures st + N.of_nat (List.length calls) < failureThreshold st)%N ->
  status (fst (run calls st w)) = Closed /\
  consecutiveFailures (fst (run calls st w))
  = (consecutiveFailures st + N.of_nat (List.length calls))%N.
Proof.
  induction calls as [|c calls IH]; intros st w F S Hlt.
  - cbn. split; [exact S|lia].
  - pose proof (Forall_inv F) as Fc. pose proof (Forall_inv_tail F) as Fr.
    cbn [run]. cbn [List.length] in Hlt |- *.
    pose proof (closed_failure c st w Fc S) as (Hc & Ht & Hcase).
    destruct (execute c st w) as [[r st'] w']; cbn [fst snd] in *.
    destruct Hcase as [[C _]|[_ S']].
    + apply N.leb_le in C. lia.
    + destruct (IH st' w' Fr S') as [S2 C2]; [rewrite Ht, Hc; lia|].
      split; [exact S2|]. rewrite C2, Hc. lia.
Qed.

Lemma open_rejects call st w t :
  status st = Open -> openedAt st = Some t ->
  (clock w - t < resetTimeout st)%Z ->
  execute call st w = (inl CircuitOpenError, st, w).
Proof.
  intros S T L. unfold execute, gate, elapsed. rewrite S, T.
  destruct (Z.leb_spec (resetTimeout st) (clock w - t)); [lia|reflexivity].
Qed.

Lemma let_through_success (call : Thunk) (st : CircuitBreakerState) (w w' : W) (a : A) :
  lets_through st (clock w) ->
  call w = (inr a, w') ->
  execute call st w = (inr a, on_success st, w').
Proof.
  intros [S|[S El]] R; unfold execute, gate; rewrite S, ?El, R; reflexivity.
Qed.

(** C1 (as amended).  From any Closed state of a breaker whose threshold
    is at least 1, [failureThreshold] failing calls in a row leave the
    breaker Open, with the time it opened at recorded; from then on every
    call made while less than [resetTimeout] has passed since it opened
    is rejected with [CircuitOpenError]: the result, the breaker and the
    world are the same whatever the thunk, which is never run.  Counted
    from no failures, the breaker opens at the last of these calls and
    not before: after any smaller number of them it is still Closed. *)
Theorem breaker_threshold_trips (st : CircuitBreakerState) (w : W) (calls : list Thunk) :
  status st = Closed ->
  (1 <= failureThreshold st)%N ->
  List.length calls = N.to_nat (failureThreshold st) ->
  Forall failing calls ->
  let st' := fst (run calls st w) in
  status st' = Open /\
  (exists t, openedAt st' = Some t /\
     forall (call : Thunk) (w2 : W),
       (clock w2 - t < resetTimeout st')%Z ->
       execute call st' w2 = (inl CircuitOpenError, st', w2)) /\
  (consecutiveFailures st = 0%N ->
   forall n, (n < List.length calls)%nat ->
             status (fst (run (firstn n calls) st w)) = Closed).
Proof.
  intros S T L F st'.
  assert (Tr : tripped st').
  { apply run_closed; auto.
    - intros ->. simpl in L. lia.
    - rewrite L. lia. }
  destruct Tr as [So [t Ht]]. split; [exact So|]. split.
  - exists t. split; [exact Ht|].
    intros call w2 Hlt. apply open_rejects with (t := t); assumption.
  - intros Z n Hn.
    apply (run_below (firstn n calls) st w (failing_firstn n calls F) S).
    rewrite Z, length_firstn. lia.
Qed.

(** C2.  An Open breaker asked once [resetTimeout] has passed since
    [openedAt] turns HalfOpen and runs the thunk (the result and the
    world are the thunk's).  If the trial succeeds the breaker is Closed
    with no failures counted; if it fails the breaker is Open again and
    [openedAt] is the time at which the trial ended. *)
Theorem breaker_recovery (st : CircuitBreakerState) (w : W) (call : Thunk) (t : Z) :
  status st = Open ->
  openedAt st = Some t ->
  (resetTimeout st <= clock w - t)%Z ->
  gate st (clock w) = Some (with_status HalfOpen st) /\
  exists st',
    execute call st w = (fst (call w), st', snd (call w)) /\
    (forall a, fst (call w) = inr a ->
               status st' = Closed /\ consecutiveFailures st' = 0%N) /\
    (forall e, fst (call w) = inl e ->
               status st' = Open /\ openedAt st' = Some (clock (snd (call w)))).
Proof.
  intros S T L. unfold execute, gate, elapsed. rewrite S, T.
  destruct (Z.leb_spec (resetTimeout st) (clock w - t)) as [_|]; [|lia].
  split; [reflexivity|].
  destruct (call w) as [[e|a] w']; simpl; eexists; split; try reflexivity;
    split; intros x Hx; try discriminate; split; reflexivity.
Qed.

End Execute.

End BreakerFacts.

(** *** The breaker on a concrete run *)

Module BreakerScenario.
Import Breaker Sample.

(** C1 as stated fails.  Three failing calls open a breaker of
    threshold 3 at time 0; the very next call, made at time 5000 when
    the reset timeout of 1000 has passed, is not rejected: its thunk
    runs and the breaker closes.  With a reset timeout of 0 the same
    happens to a call made at once.  And with a threshold of 0 the
    breaker is still Closed after its (zero) failing calls. *)
Lemma late_call_is_attempted :
  let st := fst (runOnClock [failingThunk; failingThunk; failingThunk]
                            (initial 3 1000) 0%Z) in
  let st0 := fst (runOnClock [failingThunk; failingThunk; failingThunk]
                             (initial 3 0) 0%Z) in
  status st = Open /\
  executeOnClock succeedingThunk st 5000%Z <> (inl circuitOpen, st, 5000%Z) /\
  fst (fst (executeOnClock succeedingThunk st 5000%Z)) = inr (js "ok") /\
  status st0 = Open /\
  fst (fst (executeOnClock succeedingThunk st0 0%Z)) = inr (js "ok") /\
  status (fst (runOnClock [] (initial 0 1000) 0%Z)) = Closed.
Proof.
  split; [reflexivity|]. split; [|repeat split; reflexivity].
  intros E. apply (f_equal (fun x => fst (fst x))) in E. discriminate E.
Qed.

(** The threshold theorem on that run. *)
Lemma breaker_threshold_trips_witness :
  let calls := [failingThunk; failingThunk; failingThunk] in
  let st := fst (runOnClock calls (initial 3 1000) 0%Z) in
  status st = Open /\
  (exists t, openedAt st = Some t /\
     forall (call : Thunk Z jsstring jsstring) (w2 : Z),
       (w2 - t < resetTimeout st)%Z ->
       executeOnClock call st w2 = (inl circuitOpen, st, w2)) /\
  (consecutiveFailures (initial 3 1000) = 0%N ->
   forall n, (n < List.length calls)%nat ->
             status (fst (runOnClock (firstn n calls) (initial 3 1000) 0%Z)) = Closed).
Proof.
  apply (BreakerFacts.breaker_threshold_trips
           Z jsstring jsstring (fun w => w) circuitOpen (initial 3 1000) 0%Z
           [failingThunk; failingThunk; failingThunk]).
  - reflexivity.
  - simpl. lia.
  - reflexivity.
  - repeat constructor; intros w; exists (js "boom"); reflexivity.
Defined.

(** The recovery theorem on the breaker that run leaves, asked at time
    5000. *)
Lemma breaker_recovery_witness :
  let st := fst (runOnClock [failingThunk; failingThunk; failingThunk]
                            (initial 3 1000) 0%Z) in
  gate st 5000%Z = Some (with_status HalfOpen st) /\
  exists st',
    executeOnClock succeedingThunk st 5000%Z
    = (fst (succeedingThunk 5000%Z), st', snd (succeedingThunk 5000%Z)) /\
    (forall a, fst (succeedingThunk 5000%Z) = inr a ->
               status st' = Closed /\ consecutiveFailures st' = 0%N) /\
    (forall e, fst (succeedingThunk 5000%Z) = inl e ->
               status st' = Open /\
               openedAt st' = Some (snd (succeedingThunk 5000%Z))).
Proof.
  apply (BreakerFacts.breaker_recovery
           Z jsstring jsstring (fun w => w) circuitOpen _ 5000%Z succeedingThunk 0%Z).
  - reflexivity.
  - reflexivity.
  - simpl. lia.
Defined.

End BreakerScenario.


(** ** Resources: templates and lookup order *)

Module ResourceFacts.
Import Template Dispatch.

(** *** The regular expression matches anywhere *)

Lemma plus_extends (post : jsstring) k k' :
  extends_to post k k' ->
  forall s taken caps,
    plus k taken s = Some caps ->
    exists caps', plus k' taken (s ++ post) = Some caps'.
Proof.
  intros K. induction s as [|x s IH]; intros taken caps; cbn [plus app].
  - discriminate.
  - destruct (line_terminator x); [discriminate|].
    destruct (plus k (taken ++ [x]) s) as [c|] eqn:P.
    + intros _. destruct (IH _ _ P) as [c' ->]. eauto.
    + destruct (k s) as [c|] eqn:R; [|discriminate]. intros _.
      destruct (K _ _ R) as [c' ->].
      destruct (plus k' (taken ++ [x]) (s ++ post)); eauto.
Qed.

Lemma match_here_extends (post : jsstring) (ts : list Tok) :
  extends_to post (match_here ts) (match_here ts).
Proof.
  induction ts as [|[c| |] ts IH]; intros s caps; cbn [match_here].
  - eauto.
  - destruct s as [|x s]; [discriminate|]. cbn [app].
    destruct (N.eqb x c); [apply IH|discriminate].
  - destruct s as [|x s]; [discriminate|]. cbn [app].
    destruct (line_terminator x); [discriminate|apply IH].
  - apply plus_extends. exact IH.
Qed.

Lemma exec_here (ts : list Tok) (s : jsstring) caps :
  match_here ts s = Some caps -> exec ts s = Some caps.
Proof. intros M. destruct s; cbn [exec]; rewrite M; reflexivity. Qed.

Lemma exec_later (ts : list Tok) (x : N) (s : jsstring) caps :
  exec ts s = Some caps -> exists caps', exec ts (x :: s) = Some caps'.
Proof.
  intros E. cbn [exec]. destruct (match_here ts (x :: s)); eauto.
Qed.

Lemma exec_extends (post : jsstring) (ts : list Tok) :
  extends_to post (exec ts) (exec ts).
Proof.
  intros s. induction s as [|x s IH]; intros caps; cbn [exec app].
  - destruct (match_here ts []) as [c|] eqn:M; [|discriminate]. intros _.
    destruct (match_here_extends post ts [] c M) as [c' M'].
    exists c'. apply exec_here. exact M'.
  - destruct (match_here ts (x :: s)) as [c|] eqn:M.
    + intros _. destruct (match_here_extends post ts (x :: s) c M) as [c' M'].
      cbn [app] in M'. rewrite M'. eauto.
    + intros E. destruct (IH _ E) as [c' E'].
      destruct (match_here ts (x :: s ++ post)); eauto.
Qed.

(** Whatever is put before and after a URI the expression accepts, the
    expression accepts the result. *)
Lemma test_is_not_anchored (regex : list Tok) (uri pre post : jsstring) :
  test regex uri = true -> test regex (pre ++ uri ++ post) = true.
Proof.
  unfold test. destruct (exec regex uri) as [caps|] eqn:E; [intros _|discriminate].
  destruct (exec_extends post regex uri caps E) as [caps' E'].
  assert (P : exists c, exec regex (pre ++ uri ++ post) = Some c).
  { clear E. induction pre as [|x pre IH]; cbn [app]; [eauto|].
    destruct IH as [c IH]. exact (exec_later regex x _ c IH). }
  destruct P as [c ->]. reflexivity.
Qed.

Section Lookup.

Variable env : Collaborators.
Variable reg : Registry.

(** What a read-resource request comes to, once the URI is read off the
    parameters. *)
Lemma serve_read (fields : list (jsstring * JSVal)) (uri : jsstring) (srv : Server) :
  prop fields (js "uri") = VStr uri ->
  fst (serve env reg {| method := ReadResource; params := VObj fields |} srv)
  = mapOutcome Value
      match resourceHandlers reg uri with
      | Some result => settled result
      | None => scanTemplates (resourceTemplateHandlers reg) uri
      end.
Proof.
  intros U. unfold serve, handleRequest, requestHandler, readResource.
  cbn [method params]. rewrite U.
  destruct (resourceHandlers reg uri) as [result|].
  - destruct (mapOutcome Value (settled result)); reflexivity.
  - destruct (mapOutcome Value _); reflexivity.
Qed.



(** At the dispatcher: once the first template accepts a URI, it is
    handed every URI that contains it and has no literal registration. *)
Lemma surroundings_are_dispatched
      (pattern : jsstring) (handler : jsstring -> Thrown + JSVal) rest
      (regex : list Tok) (uri pre post : jsstring) (srv : Server) :
  resourceTemplateHandlers reg = (pattern, handler) :: rest ->
  template_regex pattern = Some regex ->
  test regex uri = true ->
  resourceHandlers reg (pre ++ uri ++ post) = None ->
  fst (serve env reg
             {| method := ReadResource;
                params := VObj [(js "uri", VStr (pre ++ uri ++ post))] |} srv)
  = mapOutcome Value (settled (handler (pre ++ uri ++ post))).
Proof.
  intros Ts R T L.
  rewrite (serve_read [(js "uri", VStr (pre ++ uri ++ post))]
                      (pre ++ uri ++ post) srv eq_refl), L, Ts.
  cbn [scanTemplates]. rewrite R, (test_is_not_anchored regex uri pre post T).
  reflexivity.
Qed.


(** C4.  With the template [resource:component/{name}] registered, the
    URI [resource:component/AnimatedList] matches it, the group
    capturing [AnimatedList], and is answered by the template's handler;
    [resource:component/] does not match and is not found. *)
Theorem component_template_scenario
        (handler : jsstring -> Thrown + JSVal) (srv : Server) :
  resourceTemplateHandlers reg = [(js "resource:component/{name}", handler)] ->
  resourceHandlers reg (js "resource:component/AnimatedList") = None ->
  resourceHandlers reg (js "resource:component/") = None ->
  (exists regex,
      template_regex (js "resource:component/{name}") = Some regex /\
      exec regex (js "resource:component/AnimatedList") = Some [js "AnimatedList"] /\
      test regex (js "resource:component/AnimatedList") = true /\
      test regex (js "resource:component/") = false) /\
  fst (serve env reg (Sample.readOf (js "resource:component/AnimatedList")) srv)
  = mapOutcome Value (settled (handler (js "resource:component/AnimatedList"))) /\
  fst (serve env reg (Sample.readOf (js "resource:component/")) srv)
  = Raised (Error (js "Resource not found: resource:component/")).
Proof.
  intros Ts L1 L2.
  destruct (template_regex (js "resource:component/{name}")) as [regex|] eqn:R;
    [|vm_compute in R; discriminate R].
  assert (X : exec regex (js "resource:component/AnimatedList") = Some [js "AnimatedList"]).
  { vm_compute in R. inversion R; subst regex. vm_compute. reflexivity. }
  assert (T1 : test regex (js "resource:component/AnimatedList") = true).
  { unfold test. rewrite X. reflexivity. }
  assert (T2 : test regex (js "resource:component/") = false).
  { vm_compute in R. inversion R; subst regex. vm_compute. reflexivity. }
  split; [exists regex; auto|].
  unfold Sample.readOf. split.
  - rewrite serve_read with (uri := js "resource:component/AnimatedList")
      by (vm_compute; reflexivity).
    rewrite L1, Ts. cbn [scanTemplates]. rewrite R, T1. reflexivity.
  - rewrite serve_read with (uri := js "resource:component/")
      by (vm_compute; reflexivity).
    rewrite L2, Ts. cbn [scanTemplates]. rewrite R, T2. reflexivity.
Qed.

End Lookup.

(** *** On the sample installation *)

Import Sample.


(** The scenario on the sample registry. *)
Lemma component_template_scenario_witness :
  (exists regex,
      template_regex (js "resource:component/{name}") = Some regex /\
      exec regex (js "resource:component/AnimatedList") = Some [js "AnimatedList"] /\
      test regex (js "resource:component/AnimatedList") = true /\
      test regex (js "resource:component/") = false) /\
  fst (serve collaborators registry (readOf (js "resource:component/AnimatedList"))
             closedServer)
  = Returned (Value (VStr (js "resource:component/AnimatedList"))) /\
  fst (serve collaborators registry (readOf (js "resource:component/")) closedServer)
  = Raised (Error (js "Resource not found: resource:component/")).
Proof.
  apply (component_template_scenario
           collaborators registry (fun uri => inr (VStr uri)) closedServer);
    reflexivity.
Defined.

(** C3 fails on the code.  The regular expression is built without
    anchors, so [test] looks for the pattern anywhere in the URI: a URI
    that merely contains an instance of the template is dispatched to
    the template's handler, although it does not match the template
    from end to end. *)
Lemma unanchored_template_dispatch :
  let uri := js "https://elsewhere/?q=resource:component/AnimatedList" in
  spec_matches componentTemplate uri = false /\
  fst (serve collaborators registry (readOf uri) closedServer)
  = Returned (Value (VStr uri)).
Proof. split; vm_compute; reflexivity. Qed.

(** C5 fails on the code.  The order of the lookup is as claimed, but
    the lookup does succeed for a URI that is not registered: the URI
    below has no literal registration and is an instance of no
    registered template, and the request for it is answered by the
    component template's handler instead of failing, because the
    template's expression is searched for inside the URI. *)
Lemma unregistered_uri_is_read :
  let uri := js "x-resource:component/Dock" in
  resourceHandlers registry uri = None /\
  forallb (fun entry => negb (spec_matches (fst entry) uri))
          (resourceTemplateHandlers registry) = true /\
  fst (serve collaborators registry (readOf uri) closedServer)
  = Returned (Value (VStr uri)).
Proof. repeat split; vm_compute; reflexivity. Qed.

(** The literal text of a template is not escaped either: a dot in it
    stands for any code unit. *)
Lemma literal_dot_is_a_wildcard :
  spec_matches (js "resource:v1.0/{name}") (js "resource:v1x0/Dock") = false /\
  option_map (fun regex => test regex (js "resource:v1x0/Dock"))
             (template_regex (js "resource:v1.0/{name}")) = Some true.
Proof. split; vm_compute; reflexivity. Qed.

End ResourceFacts.

(** ** The tool handlers *)

Module ToolFacts.
Import Tools.

Lemma shaped_ret (s : jsstring) : shaped (ret (text_content s)).
Proof. intros w r w' E. inversion E. eauto. Qed.

Lemma shaped_throw (e : Thrown) : shaped (throw e).
Proof. intros w r w' E. discriminate E. Qed.

Lemma shaped_bind {A} (c : H A) (k : A -> H Envelope) :
  (forall a, shaped (k a)) -> shaped (bind c k).
Proof.
  intros K w r w' E. unfold bind in E.
  destruct (c w) as [[e|a] w1]; [discriminate E|].
  exact (K a w1 r w' E).
Qed.

Ltac shape :=
  repeat first
    [ apply shaped_ret
    | apply shaped_throw
    | apply shaped_bind; intros
    | match goal with
      | |- shaped (if ?b then _ else _) => destruct b
      | |- shaped (match ?x with _ => _ end) => destruct x
      end ].

Section Handlers.

Variable env : Collaborators.

Lemma handleGetComponent_shaped params : shaped (handleGetComponent_try env params).
Proof. unfold handleGetComponent_try. shape. Qed.

Lemma handleGetComponentDemo_shaped params :
  shaped (handleGetComponentDemo_try env params).
Proof. unfold handleGetComponentDemo_try. shape. Qed.

Lemma handleListComponents_shaped params :
  shaped (handleListComponents_try env params).
Proof. unfold handleListComponents_try. shape. Qed.

Lemma handleGetComponentMetadata_shaped params :
  shaped (handleGetComponentMetadata_try env params).
Proof. unfold handleGetComponentMetadata_try. shape. Qed.

Lemma handleSearchComponents_shaped params :
  shaped (handleSearchComponents_try env params).
Proof. unfold handleSearchComponents_try. shape. Qed.

(** The three tables list the same five names, and each handler is its
    [try] block under its [catch] block. *)
Lemma tool_entry (name : jsstring) (handler : JSVal -> H Envelope) :
  lookup (toolHandlers env) name = Some handler ->
  exists body tag prefix,
    lookup (toolBodies env) name = Some body /\
    lookup catchTags name = Some (tag, prefix) /\
    (forall params, shaped (body params)) /\
    (forall params,
        handler params = try_catch (body params) (user_friendly tag prefix)) /\
    In name (map fst (toolHandlers env)).
Proof.
  unfold toolHandlers, toolBodies, catchTags. cbn [lookup map fst].
  repeat match goal with
         | |- context [str_eqb ?a name] =>
             let E := fresh "E" in
             destruct (str_eqb a name) eqn:E;
             [ apply str_eqb_spec in E; intros X; inversion X; subst; clear X;
               do 3 eexists;
               split; [reflexivity|];
               split; [reflexivity|];
               split; [intros params;
                       first [ apply handleGetComponent_shaped
                             | apply handleGetComponentDemo_shaped
                             | apply handleListComponents_shaped
                             | apply handleGetComponentMetadata_shaped
                             | apply handleSearchComponents_shaped ]|];
               split; [reflexivity|];
               cbn [In]; repeat first [left; reflexivity | right]
             | ]
         end.
  discriminate.
Qed.

Lemma try_catch_outcome (body : H Envelope) (tag prefix : jsstring) (w : World) :
  try_catch body (user_friendly tag prefix) w
  = match body w with
    | (inr content, w') => (inr content, w')
    | (inl e, w') =>
        (inr (text_content (prefix ++ errorMessage e)), record (LogError tag e) w')
    end.
Proof. unfold try_catch. destruct (body w) as [[e|c] w']; reflexivity. Qed.

Lemma handler_returns (name : jsstring) (handler : JSVal -> H Envelope)
      (params : JSVal) (w : World) :
  lookup (toolHandlers env) name = Some handler ->
  exists s w', handler params w = (inr (text_content s), w').
Proof.
  intros L. destruct (tool_entry name handler L) as (body & tag & prefix & _ & _ & S & C & _).
  rewrite C, try_catch_outcome.
  destruct (body params w) as [[e|content] w'] eqn:R; [eauto|].
  destruct (S params w content w' R) as [s ->]. eauto.
Qed.

Lemma handler_answers
      (name : jsstring) (handler : JSVal -> H Envelope) (params : JSVal) (w : World) :
  lookup (toolHandlers env) name = Some handler ->
  exists s w',
    handler params w = (inr (text_content s), w') /\
    forall body tag prefix e w1,
      lookup (toolBodies env) name = Some body ->
      lookup catchTags name = Some (tag, prefix) ->
      body params w = (inl e, w1) ->
      s = prefix ++ errorMessage e.
Proof.
  intros L. destruct (tool_entry name handler L) as (body & tag & prefix & B & T & S & C & _).
  rewrite C, try_catch_outcome.
  destruct (body params w) as [[e|content] w'] eqn:R.
  - do 2 eexists. split; [reflexivity|].
    intros body' tag' prefix' e' w1 B' T' R'.
    rewrite B in B'. rewrite T in T'. inversion B'; subst body'.
    inversion T'; subst. rewrite R in R'. inversion R'; subst. reflexivity.
  - destruct (S params w content w' R) as [s ->].
    do 2 eexists. split; [reflexivity|].
    intros body' tag' prefix' e' w1 B' _ R'.
    rewrite B in B'. inversion B'; subst body'. rewrite R in R'. discriminate R'.
Qed.

(** C9.  Each of the five tool handlers, on every input and in every
    world, returns and never throws, and what it returns is an envelope
    of exactly one item, of type [text].  When its [try] block fails,
    the text of that item is the handler's prefix followed by the
    message of the error, or by [Unknown error occurred] when what was
    thrown is no [Error]. *)
Theorem tool_handlers_return_envelopes
        (name : jsstring) (handler : JSVal -> H Envelope) (params : JSVal) (w : World) :
  lookup (toolHandlers env) name = Some handler ->
  exists s w',
    handler params w = (inr [ {| type := js "text"; text := s |} ], w') /\
    forall body tag prefix e w1,
      lookup (toolBodies env) name = Some body ->
      lookup catchTags name = Some (tag, prefix) ->
      body params w = (inl e, w1) ->
      s = prefix ++ match e with
                    | ErrorObj _ message => message
                    | NonError _ => js "Unknown error occurred"
                    end.
Proof. exact (handler_answers name handler params w). Qed.

(** A failure inside a tool handler is logged by the handler and handed
    back as text. *)
Lemma tool_failure_is_wrapped
      (name : jsstring) (handler body : JSVal -> H Envelope) (tag prefix : jsstring)
      (params : JSVal) (w w1 : World) (e : Thrown) :
  lookup (toolHandlers env) name = Some handler ->
  lookup (toolBodies env) name = Some body ->
  lookup catchTags name = Some (tag, prefix) ->
  body params w = (inl e, w1) ->
  handler params w
  = (inr (text_content (prefix ++ errorMessage e)), record (LogError tag e) w1).
Proof.
  intros L B T R.
  destruct (tool_entry name handler L) as (body' & tag' & prefix' & B' & T' & _ & C & _).
  rewrite B in B'. rewrite T in T'. inversion B'; inversion T'; subst.
  rewrite C, try_catch_outcome, R. reflexivity.
Qed.

(** A [try] block whose validation fails stops there. *)
Lemma validation_failure_stops {A} (name : jsstring)
      (schema : JSVal -> list Zod.Issue + A) (params : JSVal)
      (k : A -> H Envelope) (e : Thrown) (w : World) :
  validated env name schema params = inl e ->
  bind (await (validateAndSanitizeParams env name params))
       (fun v => bind (await (zodError env (schema v))) k) w
  = (inl e, w).
Proof.
  unfold validated, bind, await.
  destruct (validateAndSanitizeParams env name params) as [e'|v].
  - intros X; inversion X; reflexivity.
  - intros X; rewrite X; reflexivity.
Qed.

Lemma forget_inl {A} (r : Thrown + A) (e : Thrown) :
  forget r = inl e -> r = inl e.
Proof. destruct r; intros X; inversion X; reflexivity. Qed.

(** When validation fails, so does the [try] block, at once. *)
Lemma body_follows_validation (name : jsstring) (body : JSVal -> H Envelope)
      (params : JSVal) (e : Thrown) (w : World) :
  lookup (toolBodies env) name = Some body ->
  toolValidation env name params = Some (inl e) ->
  body params w = (inl e, w).
Proof.
  unfold toolBodies, toolValidation. cbn [lookup].
  repeat match goal with
         | |- context [str_eqb ?a name] =>
             destruct (str_eqb a name);
             [ intros X Y; inversion X; subst body; inversion Y as [Y'];
               apply forget_inl in Y';
               exact (validation_failure_stops _ _ _ _ e w Y')
             | ]
         end.
  discriminate.
Qed.

Lemma validated_tools_are_registered (name : jsstring) (params : JSVal) r :
  toolValidation env name params = Some r ->
  exists handler, lookup (toolHandlers env) name = Some handler.
Proof.
  unfold toolHandlers, toolValidation. cbn [lookup].
  repeat match goal with
         | |- context [str_eqb ?a name] =>
             destruct (str_eqb a name); [eauto|]
         end.
  discriminate.
Qed.

Lemma lacks_componentName (v : JSVal) :
  lacks (js "componentName") v -> exists issues, Zod.componentNameSchema v = inl issues.
Proof.
  unfold lacks, Zod.componentNameSchema, Zod.string_.
  destruct v; eauto.
  destruct (prop fields (js "componentName")); eauto. intros [].
Qed.

Lemma lacks_query (v : JSVal) :
  lacks (js "query") v -> exists issues, Zod.searchComponentsSchema v = inl issues.
Proof.
  unfold lacks, Zod.searchComponentsSchema, Zod.string_.
  destruct v; eauto.
  destruct (prop fields (js "query")); try (intros []);
    destruct (Zod.enum_optional _ _ _); eauto.
Qed.

Lemma failing_schema_fails {A} (name : jsstring) (field : jsstring)
      (schema : JSVal -> list Zod.Issue + A) (params : JSVal) :
  (forall v, lacks field v -> exists issues, schema v = inl issues) ->
  (forall v, validateAndSanitizeParams env name params = inr v -> lacks field v) ->
  exists e, forget (validated env name schema params) = inl e.
Proof.
  intros S V. unfold validated.
  destruct (validateAndSanitizeParams env name params) as [e|v];
    [exists e; reflexivity|].
  destruct (S v (V v eq_refl)) as [issues ->]. eexists; reflexivity.
Qed.

End Handlers.

Lemma validated_agrees {A} (env env' : Collaborators) (name : jsstring)
      (schema : JSVal -> list Zod.Issue + A) (params : JSVal) :
  validateAndSanitizeParams env' = validateAndSanitizeParams env ->
  zodMessage env' = zodMessage env ->
  validated env' name schema params = validated env name schema params.
Proof.
  intros V Z. unfold validated, zodError. rewrite V, Z. reflexivity.
Qed.

Lemma toolValidation_agrees (env env' : Collaborators) (name : jsstring)
      (params : JSVal) :
  validateAndSanitizeParams env' = validateAndSanitizeParams env ->
  zodMessage env' = zodMessage env ->
  toolValidation env' name params = toolValidation env name params.
Proof.
  intros V Z. unfold toolValidation.
  rewrite !(validated_agrees env env') by assumption. reflexivity.
Qed.

(** [get_component] called with an empty object: the validation
    fails and its message is the text. *)
Lemma tool_handlers_return_envelopes_witness :
  exists s w',
    handleGetComponent Sample.collaborators (VObj []) Sample.start
    = (inr [ {| type := js "text"; text := s |} ], w') /\
    s = js "Error retrieving component: " ++ js "Required".
Proof.
  destruct (tool_handlers_return_envelopes
              Sample.collaborators (js "get_component")
              (handleGetComponent Sample.collaborators) (VObj []) Sample.start eq_refl)
    as (s & w' & R & F).
  exists s, w'. split; [exact R|].
  exact (F (handleGetComponent_try Sample.collaborators)
           (js "Error in handleGetComponent") (js "Error retrieving component: ")
           (ErrorObj (js "ZodError") (js "Required")) Sample.start
           eq_refl eq_refl eq_refl).
Defined.

End ToolFacts.

(** ** The dispatcher *)

Module DispatchFacts.
Import Tools Dispatch.


Lemma registered_names_are_not_empty (env : Collaborators) (name : jsstring) handler :
  lookup (toolHandlers env) name = Some handler -> exists c rest, name = c :: rest.
Proof.
  intros L. destruct name as [|c rest]; [discriminate L|eauto].
Qed.

Section Calls.

Variable env : Collaborators.
Variable reg : Registry.

(** What a call-tool request comes to once the name has been resolved. *)
Lemma serve_call (fields : list (jsstring * JSVal)) (name : jsstring)
      (handler : JSVal -> H Envelope) (srv : Server) :
  prop fields (js "name") = VStr name ->
  lookup (toolHandlers env) name = Some handler ->
  serve env reg {| method := CallTool; params := VObj fields |} srv
  = let srv1 := logged (handling (js "call_tool") (VObj fields)) srv in
    let '(result, b, w) :=
      Breaker.execute now (CircuitOpenError reg)
                      (handler (orEmptyObject (prop fields (js "arguments"))))
                      (breaker srv) (world srv1) in
    match result with
    | inr content =>
        (Returned (ToolResult content),
         logged (completed (js "call_tool")) {| breaker := b; world := w |})
    | inl e =>
        (Raised e, logged (failed (js "call_tool") e) {| breaker := b; world := w |})
    end.
Proof.
  intros N L. destruct (registered_names_are_not_empty env name handler L) as (c & rest & ->).
  unfold serve, handleRequest, requestHandler, callTool.
  cbn [method params operationName]. rewrite N, L.
  cbn [logged breaker world].
  destruct (Breaker.execute _ _ _ _ _) as [[[e|content] b] w]; reflexivity.
Qed.


(** While the breaker lets calls through, the handler of a resolved
    tool call runs and the breaker records its success. *)
Lemma let_through_call (fields : list (jsstring * JSVal)) (name : jsstring)
      (handler : JSVal -> H Envelope) (srv : Server) :
  prop fields (js "name") = VStr name ->
  lookup (toolHandlers env) name = Some handler ->
  Breaker.lets_through (breaker srv) (now (world srv)) ->
  exists s w,
    handler (orEmptyObject (prop fields (js "arguments")))
            (world (logged (handling (js "call_tool") (VObj fields)) srv))
    = (inr (text_content s), w) /\
    serve env reg {| method := CallTool; params := VObj fields |} srv
    = (Returned (ToolResult (text_content s)),
       logged (completed (js "call_tool"))
              {| breaker := Breaker.on_success (breaker srv); world := w |}).
Proof.
  intros N L S.
  destruct (ToolFacts.handler_returns
              env name handler (orEmptyObject (prop fields (js "arguments")))
              (world (logged (handling (js "call_tool") (VObj fields)) srv)) L)
    as (s & w & R).
  exists s, w. split; [exact R|].
  rewrite (serve_call fields name handler srv N L). cbv zeta.
  rewrite (BreakerFacts.let_through_success
             World Envelope Thrown now (CircuitOpenError reg) _ (breaker srv)
             (world (logged (handling (js "call_tool") (VObj fields)) srv))
             w (text_content s) S R).
  reflexivity.
Qed.

(** Requests of the other six kinds leave the breaker as it is and are
    answered alike whatever its state. *)
Lemma other_requests_bypass_the_breaker (m : Method) (params : JSVal) (srv : Server) :
  m <> CallTool ->
  breaker (snd (serve env reg {| method := m; params := params |} srv)) = breaker srv /\
  forall b,
    fst (serve env reg {| method := m; params := params |}
               {| breaker := b; world := world srv |})
    = fst (serve env reg {| method := m; params := params |} srv).
Proof.
  intros NotCall. unfold serve, handleRequest, requestHandler.
  cbn [method Dispatch.params].
  destruct m; try contradiction;
    try (split; [reflexivity | intros; reflexivity]).
  - unfold readResource.
    destruct params as [ | | | | |items|fields];
      try (split; [reflexivity | intros; reflexivity]).
    destruct (prop fields (js "uri")) as [ | | | |uri| | ];
      try (split; [reflexivity | intros; reflexivity]).
    destruct (resourceHandlers reg uri) as [result|].
    + destruct (mapOutcome Value (settled result));
        (split; [reflexivity | intros; reflexivity]).
    + destruct (mapOutcome Value (scanTemplates (resourceTemplateHandlers reg) uri));
        (split; [reflexivity | intros; reflexivity]).
  - unfold getPrompt.
    destruct params as [ | | | | |items|fields];
      try (split; [reflexivity | intros; reflexivity]).
    destruct (prop fields (js "name")) as [ | | | |name| | ];
      try (split; [reflexivity | intros; reflexivity]).
    destruct (promptHandlers reg name) as [promptHandler|].
    + destruct (mapOutcome Value (settled (promptHandler (prop fields (js "arguments")))));
        (split; [reflexivity | intros; reflexivity]).
    + split; [reflexivity | intros; reflexivity].
Qed.




(** A call whose validation fails, let through by the breaker: the handler
    runs, fails, logs and answers with text; the dispatcher logs a
    success and so does the breaker. *)
Lemma call_with_failing_validation
      (fields : list (jsstring * JSVal)) (name tag prefix : jsstring)
      (e : Thrown) (srv : Server) :
  prop fields (js "name") = VStr name ->
  lookup catchTags name = Some (tag, prefix) ->
  toolValidation env name (orEmptyObject (prop fields (js "arguments"))) = Some (inl e) ->
  Breaker.lets_through (breaker srv) (now (world srv)) ->
  serve env reg {| method := CallTool; params := VObj fields |} srv
  = (Returned (ToolResult (text_content (prefix ++ errorMessage e))),
     logged (completed (js "call_tool"))
            {| breaker := Breaker.on_success (breaker srv);
               world := record (LogError tag e)
                               (world (logged (handling (js "call_tool") (VObj fields))
                                              srv)) |}).
Proof.
  intros N T V S.
  destruct (ToolFacts.validated_tools_are_registered env name _ _ V) as [handler L].
  destruct (ToolFacts.tool_entry env name handler L)
    as (body & tag' & prefix' & B & T' & _ & _ & _).
  rewrite T in T'. inversion T'; subst tag' prefix'.
  rewrite (serve_call fields name handler srv N L). cbv zeta.
  rewrite (BreakerFacts.let_through_success
             World Envelope Thrown now (CircuitOpenError reg) _ (breaker srv)
             (world (logged (handling (js "call_tool") (VObj fields)) srv)) _ _ S
             (ToolFacts.tool_failure_is_wrapped
                env name handler body tag prefix _ _ _ e L B T
                (ToolFacts.body_follows_validation env name body _ e _ B V))).
  reflexivity.
Qed.

End Calls.

(** The tools with a required field, and the field. *)
Lemma required_field_cases (name field : jsstring) (d : JSVal) :
  descriptorOf name = Some d ->
  In field (requiredFields d) ->
  (field = js "componentName" /\
   (name = js "get_component" \/ name = js "get_component_demo"
    \/ name = js "get_component_metadata")) \/
  (field = js "query" /\ name = js "search_components").
Proof.
  unfold descriptorOf, registeredTools. cbn [find].
  repeat match goal with
         | |- context [if ?c then Some ?x else _] =>
             let E := fresh "E" in
             destruct c eqn:E;
             [ change (str_eqb (match x with
                                | VObj fs =>
                                    match prop fs (js "name") with
                                    | VStr n => n
                                    | _ => []
                                    end
                                | _ => []
                                end) name = true) in E;
               apply str_eqb_spec in E; intros X; inversion X; subst d;
               intros I; vm_compute in I;
               repeat match type of I with
                      | _ \/ _ => destruct I as [I|I]
                      | False => destruct I
                      end;
               subst; vm_compute; tauto
             | clear E ]
         end.
  discriminate.
Qed.

Lemma required_field_is_validated (env : Collaborators) (name field : jsstring)
      (d : JSVal) (params : JSVal) :
  descriptorOf name = Some d ->
  In field (requiredFields d) ->
  (forall v, validateAndSanitizeParams env name params = inr v -> lacks field v) ->
  exists e tag prefix,
    toolValidation env name params = Some (inl e) /\
    lookup catchTags name = Some (tag, prefix).
Proof.
  intros D I V.
  destruct (required_field_cases name field d D I) as [[-> [ -> | [ -> | -> ]]] | [-> ->]].
  - destruct (ToolFacts.failing_schema_fails env _ _ Zod.componentNameSchema params
                ToolFacts.lacks_componentName V) as [e E].
    exists e. do 2 eexists. split; [|reflexivity].
    change (Some (forget (validated env (js "get_component")
                                    Zod.componentNameSchema params)) = Some (inl e)).
    rewrite E. reflexivity.
  - destruct (ToolFacts.failing_schema_fails env _ _ Zod.componentNameSchema params
                ToolFacts.lacks_componentName V) as [e E].
    exists e. do 2 eexists. split; [|reflexivity].
    change (Some (forget (validated env (js "get_component_demo")
                                    Zod.componentNameSchema params)) = Some (inl e)).
    rewrite E. reflexivity.
  - destruct (ToolFacts.failing_schema_fails env _ _ Zod.componentNameSchema params
                ToolFacts.lacks_componentName V) as [e E].
    exists e. do 2 eexists. split; [|reflexivity].
    change (Some (forget (validated env (js "get_component_metadata")
                                    Zod.componentNameSchema params)) = Some (inl e)).
    rewrite E. reflexivity.
  - destruct (ToolFacts.failing_schema_fails env _ _ Zod.searchComponentsSchema params
                ToolFacts.lacks_query V) as [e E].
    exists e. do 2 eexists. split; [|reflexivity].
    change (Some (forget (validated env (js "search_components")
                                    Zod.searchComponentsSchema params)) = Some (inl e)).
    rewrite E. reflexivity.
Qed.

Lemma omits_orEmptyObject (field : jsstring) (arguments : JSVal) :
  omits field arguments -> omits field (orEmptyObject arguments).
Proof.
  destruct arguments; cbn [omits]; intros O; try contradiction.
  - reflexivity.
  - exact O.
Qed.

(** C6 (as amended).  A call-tool request that leaves out a field its
    descriptor requires, let through by the breaker, does not fail: the
    handler is invoked, its own validation - the sanitiser, then the
    tool's schema - fails before any component lookup, it logs that
    error, and the request resolves with one text item, the handler's
    prefix followed by the message of the validation error.  The answer,
    the breaker and the log are the same whatever the lookups would
    return.  (The sanitiser is assumed not to supply a field the
    parameters leave out.) *)
Theorem missing_required_field_is_answered_as_text
        (env : Collaborators) (reg : Registry)
        (fields : list (jsstring * JSVal)) (name field : jsstring) (d : JSVal)
        (srv : Server) :
  prop fields (js "name") = VStr name ->
  descriptorOf name = Some d ->
  In field (requiredFields d) ->
  omits field (prop fields (js "arguments")) ->
  (forall params v,
      omits field params ->
      validateAndSanitizeParams env name params = inr v ->
      lacks field v) ->
  Breaker.lets_through (breaker srv) (now (world srv)) ->
  let request := {| method := CallTool; params := VObj fields |} in
  exists error tag prefix,
    lookup catchTags name = Some (tag, prefix) /\
    toolValidation env name (orEmptyObject (prop fields (js "arguments")))
    = Some (inl error) /\
    serve env reg request srv
    = (Returned
         (ToolResult
            [ {| type := js "text";
                 text := prefix ++ match error with
                                   | ErrorObj _ message => message
                                   | NonError _ => js "Unknown error occurred"
                                   end |} ]),
       logged (completed (js "call_tool"))
              {| breaker := Breaker.on_success (breaker srv);
                 world := record (LogError tag error)
                                 (world (logged (handling (js "call_tool") (VObj fields))
                                                srv)) |}) /\
    forall env' : Collaborators,
      validateAndSanitizeParams env' = validateAndSanitizeParams env ->
      zodMessage env' = zodMessage env ->
      serve env' reg request srv = serve env reg request srv.
Proof.
  intros N D I O V S request.
  apply omits_orEmptyObject in O.
  destruct (required_field_is_validated env name field d _ D I (fun v => V _ v O))
    as (e & tag & prefix & E & T).
  exists e, tag, prefix. split; [exact T|]. split; [exact E|].
  assert (R : forall env0,
             toolValidation env0 name (orEmptyObject (prop fields (js "arguments")))
             = Some (inl e) ->
             serve env0 reg request srv
             = (Returned (ToolResult (text_content (prefix ++ errorMessage e))),
                logged (completed (js "call_tool"))
                  {| breaker := Breaker.on_success (breaker srv);
                     world := record (LogError tag e)
                                (world (logged (handling (js "call_tool") (VObj fields))
                                               srv)) |})).
  { intros env0 E0.
    exact (call_with_failing_validation env0 reg fields name tag prefix e srv N T E0 S). }
  split; [exact (R env E)|].
  intros env' Va Zm. rewrite (R env E). apply R.
  rewrite (ToolFacts.toolValidation_agrees env env') by assumption. exact E.
Qed.

(** *** On the sample installation *)

Import Sample.

(** C6 as stated fails: [get_component] called without [componentName]
    raises no error.  The handler runs (its [catch] block logs), and the
    request completes with a text answer. *)
Lemma missing_field_is_not_raised :
  omits (js "componentName") (VObj []) /\
  serve collaborators registry (callOf (js "get_component") (VObj [])) closedServer
  = (Returned (ToolResult (text_content (js "Error retrieving component: Required"))),
     {| breaker := Breaker.initial 5 30000;
        world :=
          {| now := 0;
             log :=
               [ completed (js "call_tool");
                 LogError (js "Error in handleGetComponent")
                          (ErrorObj (js "ZodError") (js "Required"));
                 handling (js "call_tool")
                          (params (callOf (js "get_component") (VObj []))) ] |} |}).
Proof. split; vm_compute; reflexivity. Qed.

(** [search_components] called without arguments: the schema's error
    is what the answer carries. *)
Lemma missing_required_field_is_answered_as_text_witness :
  exists error tag prefix,
    lookup catchTags (js "search_components") = Some (tag, prefix) /\
    toolValidation collaborators (js "search_components") (orEmptyObject VUndef)
    = Some (inl error) /\
    serve collaborators registry (callOf (js "search_components") VUndef) closedServer
    = (Returned
         (ToolResult
            [ {| type := js "text";
                 text := prefix ++ match error with
                                   | ErrorObj _ message => message
                                   | NonError _ => js "Unknown error occurred"
                                   end |} ]),
       logged (completed (js "call_tool"))
              {| breaker := Breaker.on_success (breaker closedServer);
                 world := record (LogError tag error)
                                 (world (logged (handling (js "call_tool")
                                                   (params (callOf (js "search_components")
                                                                   VUndef)))
                                                closedServer)) |}) /\
    forall env' : Collaborators,
      validateAndSanitizeParams env' = validateAndSanitizeParams collaborators ->
      zodMessage env' = zodMessage collaborators ->
      serve env' registry (callOf (js "search_components") VUndef) closedServer
      = serve collaborators registry (callOf (js "search_components") VUndef)
              closedServer.
Proof.
  refine (missing_required_field_is_answered_as_text
            collaborators registry
            [(js "name", VStr (js "search_components")); (js "arguments", VUndef)]
            (js "search_components") (js "query")
            _ closedServer eq_refl eq_refl _ I _ (or_introl eq_refl)).
  - vm_compute. tauto.
  - intros params v O E. inversion E; subst v.
    destruct params; try exact I. cbn in O |- *. rewrite O. exact I.
Defined.




End DispatchFacts.

(** ** Start-up and the credential *)

Module StartupFacts.
Import Dispatch Startup.

Lemma parseArgs_options (p : Process) :
  asksForHelpOrVersion p = false ->
  exists githubApiKey, parseArgs p = Options githubApiKey.
Proof.
  unfold asksForHelpOrVersion, parseArgs. intros F.
  apply orb_false_elim in F. destruct F as [F V2].
  apply orb_false_elim in F. destruct F as [F V1].
  rewrite F, V1, V2. cbn [orb].
  destruct (nonEmpty (afterKeyFlag (args p))); eauto.
Qed.

(** C10 (as amended).  Whatever credential is given, by flag or by
    environment variable, or none at all: two start-ups that do not
    carry [--help], [-h], [--version] or [-v] among their arguments -
    not as the value of the credential either - and whose transport
    connects alike behave alike.
    Both end the same way, and when the transport connects both serve
    requests with the same function from requests and server states to
    answers, in which the credential does not occur.  The logs differ at
    most by the note that a credential was provided. *)
Theorem credential_does_not_interfere
        (env : Collaborators) (reg : Registry) (p q : Process) :
  asksForHelpOrVersion p = false ->
  asksForHelpOrVersion q = false ->
  connect p = connect q ->
  behaviour (main env reg p) = behaviour (main env reg q) /\
  (connect p = inr tt -> behaviour (main env reg p) = inr (serve env reg)) /\
  withoutCredentialNote (startupLog (main env reg p))
  = withoutCredentialNote (startupLog (main env reg q)).
Proof.
  intros Fp Fq C.
  destruct (parseArgs_options p Fp) as [kp Pp].
  destruct (parseArgs_options q Fq) as [kq Pq].
  unfold main. rewrite Pp, Pq, <- C.
  destruct (connect p) as [e|[]]; (split; [reflexivity|]); (split;
    [ first [reflexivity | intros X; discriminate X] |]);
    destruct kp, kq; vm_compute; reflexivity.
Qed.

(** C10 as stated fails: the value of the credential is not always
    taken as a value.  Two start-ups that differ in that value only:
    with [ghp_token] the server is started and serves, with [--help]
    the process prints the help text and exits. *)
Lemma credential_value_read_as_flag :
  args Sample.keyedProcess = [js "-g"; js "ghp_token"] /\
  args Sample.flagAsCredential = [js "-g"; js "--help"] /\
  behaviour (main Sample.collaborators Sample.registry Sample.keyedProcess)
  = inr (serve Sample.collaborators Sample.registry) /\
  behaviour (main Sample.collaborators Sample.registry Sample.flagAsCredential)
  = inl (0%Z, helpText).
Proof. repeat split; reflexivity. Qed.

(** A key by flag, a key by environment variable, and no key. *)
Lemma credential_does_not_interfere_witness :
  parseArgs Sample.keyedProcess = Options (Some (js "ghp_token")) /\
  parseArgs Sample.tokenInEnvironment = Options (Some (js "ghp_other")) /\
  parseArgs Sample.plainProcess = Options None /\
  behaviour (main Sample.collaborators Sample.registry Sample.keyedProcess)
  = behaviour (main Sample.collaborators Sample.registry Sample.plainProcess) /\
  behaviour (main Sample.collaborators Sample.registry Sample.tokenInEnvironment)
  = behaviour (main Sample.collaborators Sample.registry Sample.plainProcess) /\
  behaviour (main Sample.collaborators Sample.registry Sample.keyedProcess)
  = inr (serve Sample.collaborators Sample.registry).
Proof.
  split; [reflexivity|]. split; [reflexivity|]. split; [reflexivity|].
  pose proof (credential_does_not_interfere
                Sample.collaborators Sample.registry
                Sample.keyedProcess Sample.plainProcess
                eq_refl eq_refl eq_refl) as [B [S _]].
  pose proof (credential_does_not_interfere
                Sample.collaborators Sample.registry
                Sample.tokenInEnvironment Sample.plainProcess
                eq_refl eq_refl eq_refl) as [B' _].
  split; [exact B|]. split; [exact B' | exact (S eq_refl)].
Defined.

End StartupFacts.
(** ** More on templates *)

Module MatchingFacts.
Import Template Matching.

Lemma not_syntax (c : N) :
  syntax_character c = false ->
  N.eqb c 40 = false /\ N.eqb c 46 = false /\ N.eqb c lbrace = false.
Proof.
  intros S. repeat split.
  - destruct (N.eqb_spec c 40) as [->|]; [discriminate S|reflexivity].
  - destruct (N.eqb_spec c 46) as [->|]; [discriminate S|reflexivity].
  - destruct (N.eqb_spec c lbrace) as [->|]; [discriminate S|reflexivity].
Qed.

Lemma plain_is_kept (pattern : jsstring) :
  plain pattern = true -> replace_placeholders pattern = pattern.
Proof.
  unfold replace_placeholders. induction pattern as [|c s IH]; [reflexivity|].
  cbn [plain forallb]. intros P. apply andb_true_iff in P. destruct P as [C P].
  apply negb_true_iff in C. destruct (not_syntax c C) as (_ & _ & B).
  cbn [replace_from placeholder_length]. rewrite B. f_equal. exact (IH P).
Qed.

Lemma plain_compiles (pattern : jsstring) :
  plain pattern = true -> compile pattern = Some (map Lit pattern).
Proof.
  induction pattern as [|c s IH]; [reflexivity|].
  cbn [plain forallb]. intros P. apply andb_true_iff in P. destruct P as [C P].
  apply negb_true_iff in C. destruct (not_syntax c C) as (A & B & _).
  cbn [compile map]. rewrite A, B, C, (IH P). reflexivity.
Qed.

Lemma literal_prefix (p s : jsstring) :
  match_here (map Lit p) s = Some [] <-> exists post, s = p ++ post.
Proof.
  revert s. induction p as [|c p IH]; intros s; cbn [map match_here app].
  - split; eauto.
  - destruct s as [|x s].
    + split; [discriminate|]. intros [post E]. discriminate E.
    + destruct (N.eqb_spec x c) as [->|Ne].
      * rewrite IH. split; intros [post E]; exists post; congruence.
      * split; [discriminate|]. intros [post E]. congruence.
Qed.

Lemma literal_match_has_no_capture (p s : jsstring) caps :
  match_here (map Lit p) s = Some caps -> caps = [].
Proof.
  revert s. induction p as [|c p IH]; intros s; cbn [map match_here].
  - congruence.
  - destruct s as [|x s]; [discriminate|]. destruct (N.eqb x c); [apply IH|discriminate].
Qed.

Lemma literal_search (p s : jsstring) :
  test (map Lit p) s = true <-> exists pre post, s = pre ++ p ++ post.
Proof.
  unfold test. induction s as [|x s IH].
  - cbn [exec]. destruct (match_here (map Lit p) []) as [caps|] eqn:M.
    + split; [intros _|reflexivity].
      rewrite (literal_match_has_no_capture _ _ _ M) in M.
      apply literal_prefix in M. destruct M as [post E]. exists [], post. exact E.
    + split; [discriminate|]. intros (pre & post & E).
      destruct pre; [|discriminate E]. cbn [app] in E.
      assert (M' : match_here (map Lit p) [] = Some [])
        by (apply literal_prefix; eauto).
      congruence.
  - cbn [exec]. destruct (match_here (map Lit p) (x :: s)) as [caps|] eqn:M.
    + split; [intros _|reflexivity].
      rewrite (literal_match_has_no_capture _ _ _ M) in M.
      apply literal_prefix in M. destruct M as [post E]. exists [], post. exact E.
    + rewrite IH. split.
      * intros (pre & post & E). exists (x :: pre), post. rewrite E. reflexivity.
      * intros (pre & post & E). destruct pre as [|y pre].
        -- cbn [app] in E.
           assert (M' : match_here (map Lit p) (x :: s) = Some [])
             by (apply literal_prefix; eauto).
           congruence.
        -- inversion E. eauto.
Qed.

(** *** What the groups capture *)

Lemma oneLine_snoc (taken : jsstring) (x : N) :
  oneLine taken = true -> line_terminator x = false -> oneLine (taken ++ [x]) = true.
Proof.
  intros T X. unfold oneLine in *. rewrite forallb_app, T. cbn. rewrite X. reflexivity.
Qed.

Lemma plus_shape (k : jsstring -> option (list jsstring)) (n : nat) :
  (forall s caps, k s = Some caps -> Forall capture caps /\ List.length caps = n) ->
  forall s taken caps,
    oneLine taken = true ->
    plus k taken s = Some caps ->
    Forall capture caps /\ List.length caps = S n.
Proof.
  intros K. induction s as [|x s IH]; intros taken caps T; cbn [plus]; [discriminate|].
  destruct (line_terminator x) eqn:X; [discriminate|].
  destruct (plus k (taken ++ [x]) s) as [c|] eqn:P.
  - intros E. inversion E; subst c. exact (IH _ _ (oneLine_snoc _ _ T X) P).
  - destruct (k s) as [c|] eqn:R; [|discriminate]. intros E. inversion E; subst caps.
    destruct (K _ _ R) as [F L]. split.
    + constructor; [|exact F]. split; [|exact (oneLine_snoc _ _ T X)].
      destruct taken; discriminate.
    + cbn. rewrite L. reflexivity.
Qed.

Lemma match_here_shape (ts : list Tok) :
  forall s caps,
    match_here ts s = Some caps ->
    Forall capture caps /\ List.length caps = groups ts.
Proof.
  induction ts as [|[c| |] ts IH]; intros s caps; cbn [match_here].
  - intros E. inversion E. split; [constructor|reflexivity].
  - destruct s as [|x s]; [discriminate|]. destruct (N.eqb x c); [apply IH|discriminate].
  - destruct s as [|x s]; [discriminate|].
    destruct (line_terminator x); [discriminate|apply IH].
  - apply (plus_shape (match_here ts) (groups ts) IH). reflexivity.
Qed.

Lemma exec_is_a_match (ts : list Tok) (s : jsstring) caps :
  exec ts s = Some caps -> exists s', match_here ts s' = Some caps.
Proof.
  induction s as [|x s IH]; cbn [exec].
  - destruct (match_here ts []) eqn:M; [|discriminate]. intros E; inversion E; subst. eauto.
  - destruct (match_here ts (x :: s)) eqn:M; [intros E; inversion E; subst; eauto|].
    exact IH.
Qed.

(** The groups of a template's expression and its placeholders. *)
Lemma groups_are_placeholders (s : jsstring) :
  forall skip toks,
    parenFree s = true ->
    compile (replace_from skip s) = Some toks ->
    groups toks
    = List.length (filter (fun g => match g with Placeholder => true | _ => false end)
                          (spec_segments_from skip s)).
Proof.
  induction s as [|c s IH]; intros skip toks PF; cbn [replace_from spec_segments_from].
  - cbn [compile]. intros E; inversion E. reflexivity.
  - cbn [parenFree forallb] in PF. apply andb_true_iff in PF. destruct PF as [C PF].
    apply negb_true_iff in C.
    destruct skip as [|k]; [|apply IH; exact PF].
    destruct (placeholder_length (c :: s)) as [n|].
    + change (js "(.+)") with [40; 46; 43; 41]%N. cbn [app compile N.eqb Pos.eqb andb].
      destruct (compile (replace_from (n - 1) s)) as [toks'|] eqn:R; [|discriminate].
      cbn [option_map]. intros E; inversion E; subst toks.
      cbn [filter List.length]. unfold groups. cbn [filter List.length].
      f_equal. exact (IH _ _ PF R).
    + cbn [compile]. rewrite C.
      destruct (compile (replace_from 0 s)) as [toks'|] eqn:R;
        destruct (N.eqb c 46); [| destruct (syntax_character c) | discriminate
                                | destruct (syntax_character c); discriminate ];
        try discriminate;
        cbn [option_map]; intros E; inversion E; subst toks;
        unfold groups; cbn [filter]; exact (IH _ _ PF R).
Qed.

(** For a template without parentheses whose expression lies in the
    fragment of [compile] (its literal text holds no regular-expression
    syntax character but the dot): when the expression matches, it
    yields one capture for each placeholder of the template, and every
    capture holds at least one code unit and no line terminator. *)
Theorem one_capture_per_placeholder (pattern uri : jsstring)
        (regex : list Tok) (caps : list jsstring) :
  parenFree pattern = true ->
  template_regex pattern = Some regex ->
  exec regex uri = Some caps ->
  List.length caps = placeholders pattern /\ Forall capture caps.
Proof.
  intros PF R X. destruct (exec_is_a_match _ _ _ X) as [s' M].
  destruct (match_here_shape _ _ _ M) as [F L]. split; [|exact F].
  rewrite L. exact (groups_are_placeholders pattern 0 regex PF R).
Qed.

(** *** The expression accepts every instance of its template *)

Lemma plus_complete (k : jsstring -> option (list jsstring)) (b : jsstring) caps0 :
  k b = Some caps0 ->
  forall a taken,
    a <> [] -> oneLine a = true ->
    exists caps, plus k taken (a ++ b) = Some caps.
Proof.
  intros K. induction a as [|x a IH]; intros taken NE OL; [congruence|].
  cbn [oneLine forallb] in OL. apply andb_true_iff in OL. destruct OL as [X OL].
  apply negb_true_iff in X. cbn [app plus]. rewrite X.
  destruct a as [|y a].
  - cbn [app]. destruct (plus k (taken ++ [x]) b); [eauto|]. rewrite K. eauto.
  - destruct (IH (taken ++ [x]) ltac:(discriminate) OL) as [caps ->]. eauto.
Qed.

Lemma placeholder_splits (segs : list Segment) (s : jsstring) :
  spec_full_match (Placeholder :: segs) s = true ->
  exists a b, s = a ++ b /\ a <> [] /\ spec_full_match segs b = true.
Proof.
  induction s as [|x s IH]; cbn [spec_full_match]; [discriminate|].
  intros T. apply orb_true_iff in T. destruct T as [T|T].
  - exists [x], s. repeat split; [discriminate|exact T].
  - destruct (IH T) as (a & b & -> & _ & M).
    exists (x :: a), b. repeat split; [discriminate|exact M].
Qed.

Lemma instance_is_matched (s : jsstring) :
  forall skip toks uri,
    parenFree s = true ->
    compile (replace_from skip s) = Some toks ->
    spec_full_match (spec_segments_from skip s) uri = true ->
    oneLine uri = true ->
    exists caps, match_here toks uri = Some caps.
Proof.
  induction s as [|c s IH]; intros skip toks uri PF;
    cbn [replace_from spec_segments_from].
  - cbn [compile]. intros E _ _; inversion E. cbn [match_here]. eauto.
  - cbn [parenFree forallb] in PF. apply andb_true_iff in PF. destruct PF as [C PF].
    apply negb_true_iff in C.
    destruct skip as [|k]; [|apply IH; exact PF].
    destruct (placeholder_length (c :: s)) as [n|].
    + change (js "(.+)") with [40; 46; 43; 41]%N. cbn [app compile N.eqb Pos.eqb andb].
      destruct (compile (replace_from (n - 1) s)) as [toks'|] eqn:R; [|discriminate].
      cbn [option_map]. intros E M OL; inversion E; subst toks.
      destruct (placeholder_splits _ _ M) as (a & b & -> & NE & Mb).
      unfold oneLine in OL. rewrite forallb_app in OL.
      apply andb_true_iff in OL. destruct OL as [OLa OLb].
      destruct (IH _ _ _ PF R Mb OLb) as [caps0 K].
      cbn [match_here]. exact (plus_complete _ _ _ K a [] NE OLa).
    + cbn [compile spec_full_match]. rewrite C.
      intros E M OL. destruct uri as [|x u]; [discriminate M|].
      apply andb_true_iff in M. destruct M as [X M].
      apply N.eqb_eq in X. subst x.
      cbn [oneLine forallb] in OL. apply andb_true_iff in OL. destruct OL as [LT OL].
      apply negb_true_iff in LT.
      destruct (N.eqb c 46) eqn:D.
      * destruct (compile (replace_from 0 s)) as [toks'|] eqn:R; [|discriminate E].
        cbn [option_map] in E. inversion E; subst toks.
        cbn [match_here]. rewrite LT. exact (IH _ _ _ PF R M OL).
      * destruct (syntax_character c); [discriminate E|].
        destruct (compile (replace_from 0 s)) as [toks'|] eqn:R; [|discriminate E].
        cbn [option_map] in E. inversion E; subst toks.
        cbn [match_here]. rewrite N.eqb_refl. exact (IH _ _ _ PF R M OL).
Qed.

(** A URI that is an instance of a template from its first to its last
    code unit, each placeholder standing for one or more code units, is
    accepted by the template's expression, line terminators aside: the
    read-resource loop turns no proper instance away. *)
Theorem every_instance_is_accepted (pattern uri : jsstring) (regex : list Tok) :
  parenFree pattern = true ->
  template_regex pattern = Some regex ->
  oneLine uri = true ->
  spec_matches pattern uri = true ->
  test regex uri = true.
Proof.
  intros PF R OL M.
  destruct (instance_is_matched pattern 0 regex uri PF R M OL) as [caps H].
  unfold test. destruct uri; cbn [exec]; rewrite H; reflexivity.
Qed.

(** A template of plain text, without placeholder, is a search string:
    the read-resource loop takes it to match exactly the URIs that
    contain it somewhere. *)
Theorem plain_template_matches_what_contains_it (pattern : jsstring) :
  plain pattern = true ->
  exists regex,
    template_regex pattern = Some regex /\
    forall uri, test regex uri = true <-> exists pre post, uri = pre ++ pattern ++ post.
Proof.
  intros P. exists (map Lit pattern). split.
  - unfold template_regex. rewrite (plain_is_kept _ P). exact (plain_compiles _ P).
  - intros uri. apply literal_search.
Qed.

Lemma plain_template_matches_what_contains_it_witness :
  exists regex,
    template_regex (js "resource:get_components") = Some regex /\
    forall uri,
      test regex uri = true
      <-> exists pre post, uri = pre ++ js "resource:get_components" ++ post.
Proof.
  apply (plain_template_matches_what_contains_it (js "resource:get_components")).
  reflexivity.
Defined.

Lemma one_capture_per_placeholder_witness :
  List.length [js "Dock"; js "demo"] = placeholders (js "resource:{kind}/x/{name}") /\
  Forall capture [js "Dock"; js "demo"].
Proof.
  refine (one_capture_per_placeholder
            (js "resource:{kind}/x/{name}") (js "resource:Dock/x/demo") _ _
            eq_refl eq_refl _).
  vm_compute. reflexivity.
Defined.

Lemma every_instance_is_accepted_witness :
  test [Lit 97; Lit 47; Group; Lit 47; Lit 98] (js "a/x/y/b") = true.
Proof.
  apply (every_instance_is_accepted (js "a/{id}/b") (js "a/x/y/b"));
    reflexivity.
Defined.

End MatchingFacts.

(** ** Grouping and sorting in the listing handlers *)

Module GroupingFacts.
Import Tools Grouping.

Lemma str_eqb_false (a b : jsstring) : str_eqb a b = false <-> a <> b.
Proof.
  split.
  - intros F E. apply str_eqb_spec in E. congruence.
  - intros NE. destruct (str_eqb a b) eqn:E; [|reflexivity].
    apply str_eqb_spec in E. contradiction.
Qed.

Lemma lookup_none {V} (acc : list (jsstring * V)) (k : jsstring) :
  lookup acc k = None -> ~ In k (map fst acc).
Proof.
  induction acc as [|[k' v] acc IH]; cbn [lookup map fst In]; [tauto|].
  destruct (str_eqb k' k) eqn:E; [discriminate|].
  apply str_eqb_false in E. intros N [X|X]; [contradiction|exact (IH N X)].
Qed.

Lemma lookup_some {V} (acc : list (jsstring * V)) (k : jsstring) (v : V) :
  lookup acc k = Some v -> In (k, v) acc.
Proof.
  induction acc as [|[k' v'] acc IH]; cbn [lookup In]; [discriminate|].
  destruct (str_eqb k' k) eqn:E.
  - apply str_eqb_spec in E. intros X; inversion X; subst. left; reflexivity.
  - intros X. right. exact (IH X).
Qed.

Lemma push_at_keys acc key name : map fst (push_at acc key name) = map fst acc.
Proof.
  induction acc as [|[k ns] acc IH]; [reflexivity|].
  cbn [push_at]. destruct (str_eqb k key); cbn [map fst]; [reflexivity|].
  rewrite IH. reflexivity.
Qed.

Lemma push_at_lookup acc key name ns0 :
  lookup acc key = Some ns0 ->
  forall k,
    lookup (push_at acc key name) k
    = if str_eqb key k then Some (ns0 ++ [name]) else lookup acc k.
Proof.
  induction acc as [|[k' ns] acc IH]; cbn [lookup push_at]; [discriminate|].
  destruct (str_eqb k' key) eqn:E.
  - apply str_eqb_spec in E. subst k'. intros X; inversion X; subst ns0. intros k.
    cbn [lookup]. destruct (str_eqb key k); reflexivity.
  - intros L k. cbn [lookup]. rewrite (IH L k).
    destruct (str_eqb k' k) eqn:E'; [|reflexivity].
    apply str_eqb_spec in E'. subst k'. rewrite str_eqb_false in E.
    destruct (str_eqb key k) eqn:E2; [|reflexivity].
    apply str_eqb_spec in E2. congruence.
Qed.

Lemma push_at_inherited acc key name :
  Forall (fun kv : jsstring * list jsstring => inherited (fst kv) = false) acc ->
  Forall (fun kv : jsstring * list jsstring => inherited (fst kv) = false)
         (push_at acc key name).
Proof.
  induction 1 as [|[k ns] acc Hk HF IH]; cbn [push_at]; [constructor|].
  destruct (str_eqb k key); constructor; assumption.
Qed.

Lemma snoc_lookup (acc : list (jsstring * list jsstring)) key ns k :
  lookup (acc ++ [(key, ns)]) k
  = match lookup acc k with
    | Some v => Some v
    | None => if str_eqb key k then Some ns else None
    end.
Proof.
  induction acc as [|[k' v] acc IH]; cbn [app lookup]; [reflexivity|].
  destruct (str_eqb k' k); [reflexivity|exact IH].
Qed.

Lemma namesIn_cons (k : jsstring) (c : Component) (rest : list Component) :
  namesIn k (c :: rest)
  = if str_eqb (component_category c) k
    then component_name c :: namesIn k rest
    else namesIn k rest.
Proof.
  unfold namesIn. cbn [filter]. destruct (str_eqb (component_category c) k); reflexivity.
Qed.

(** What the [reduce] builds, whatever accumulator it starts from. *)
Lemma group_from (components : list Component) :
  forall acc,
    tidy acc ->
    groupable components = true ->
    exists groups,
      group_by_category acc components = inr groups /\
      tidy groups /\
      forall k,
        lookup groups k
        = match lookup acc k with
          | Some ns => Some (ns ++ namesIn k components)
          | None =>
              match namesIn k components with
              | [] => None
              | names => Some names
              end
          end.
Proof.
  induction components as [|c rest IH]; intros acc [ND NI] G.
  - exists acc. split; [reflexivity|]. split; [split; assumption|].
    intros k. cbn. destruct (lookup acc k); [rewrite app_nil_r|]; reflexivity.
  - cbn [groupable forallb] in G. apply andb_true_iff in G. destruct G as [Gc G].
    apply negb_true_iff in Gc. cbn [group_by_category].
    destruct (lookup acc (component_category c)) as [ns0|] eqn:L.
    + destruct (IH (push_at acc (component_category c) (component_name c)))
        as (groups & R & T & Lk); [|exact G|].
      { split; [rewrite push_at_keys; exact ND|apply push_at_inherited; exact NI]. }
      exists groups. split; [exact R|]. split; [exact T|].
      intros k. rewrite Lk, (push_at_lookup _ _ _ _ L k), namesIn_cons.
      destruct (str_eqb (component_category c) k) eqn:E.
      * apply str_eqb_spec in E. subst k. rewrite L, <- app_assoc. reflexivity.
      * reflexivity.
    + rewrite Gc.
      destruct (IH (acc ++ [(component_category c, [component_name c])]))
        as (groups & R & T & Lk); [|exact G|].
      { split.
        - rewrite map_app. cbn [map fst]. apply NoDup_app; try assumption.
          + repeat constructor. intros [].
          + intros k In1 [<-|[]]. exact (lookup_none _ _ L In1).
        - apply Forall_app. split; [exact NI|]. repeat constructor. exact Gc. }
      exists groups. split; [exact R|]. split; [exact T|].
      intros k. rewrite Lk, snoc_lookup, namesIn_cons.
      destruct (lookup acc k) as [v|] eqn:Lk0.
      * destruct (str_eqb (component_category c) k) eqn:E; [|reflexivity].
        apply str_eqb_spec in E. subst k. congruence.
      * destruct (str_eqb (component_category c) k); reflexivity.
Qed.

Lemma group_fails (components : list Component) :
  forall acc,
    tidy acc ->
    groupable components = false ->
    group_by_category acc components
    = inl (TypeError (js "acc[component.category].push is not a function")).
Proof.
  induction components as [|c rest IH]; intros acc [ND NI] G; [discriminate G|].
  cbn [groupable forallb] in G. cbn [group_by_category].
  destruct (lookup acc (component_category c)) as [ns0|] eqn:L.
  - assert (Gc : inherited (component_category c) = false).
    { apply lookup_some in L. rewrite Forall_forall in NI. exact (NI _ L). }
    rewrite Gc in G. cbn [negb andb] in G.
    apply IH; [|exact G].
    split; [rewrite push_at_keys; exact ND|apply push_at_inherited; exact NI].
  - destruct (inherited (component_category c)) eqn:Gc; [reflexivity|].
    cbn [negb andb] in G. apply IH; [|exact G].
    split.
    + rewrite map_app. cbn [map fst]. apply NoDup_app; try assumption.
      * repeat constructor. intros [].
      * intros k In1 [<-|[]]. exact (lookup_none _ _ L In1).
    + apply Forall_app. split; [exact NI|]. repeat constructor. exact Gc.
Qed.

(** The grouping of the listing handlers.  Unless a category is a name
    inherited from [Object.prototype], the [reduce] yields one group per
    category that occurs, with distinct keys, and the group of a
    category holds the names of exactly its components, in catalogue
    order; no component is lost and none is listed twice.  If some
    category is an inherited name, the [reduce] throws a TypeError. *)
Theorem grouping_by_category (components : list Component) :
  (groupable components = true ->
   exists groups,
     group_by_category [] components = inr groups /\
     NoDup (map fst groups) /\
     forall k,
       lookup groups k
       = match namesIn k components with
         | [] => None
         | names => Some names
         end) /\
  (groupable components = false ->
   group_by_category [] components
   = inl (TypeError (js "acc[component.category].push is not a function"))).
Proof.
  assert (T : tidy []) by (split; constructor).
  split.
  - intros G. destruct (group_from components [] T G) as (groups & R & [ND _] & L).
    exists groups. split; [exact R|]. split; [exact ND|exact L].
  - exact (group_fails components [] T).
Qed.

(** The two components of the sample catalogue form one group. *)
Lemma grouping_by_category_witness :
  exists groups,
    group_by_category [] Sample.catalogue = inr groups /\
    NoDup (map fst groups) /\
    forall k,
      lookup groups k
      = match namesIn k Sample.catalogue with
        | [] => None
        | names => Some names
        end.
Proof.
  apply (proj1 (grouping_by_category Sample.catalogue)). reflexivity.
Defined.

(** *** The order of the sections *)

Lemma lookup_known {V} (acc : list (jsstring * V)) (key : jsstring) :
  known (map fst acc) key = match lookup acc key with Some _ => true | None => false end.
Proof.
  unfold known. induction acc as [|[k v] acc IH]; [reflexivity|].
  cbn [map fst existsb lookup]. destruct (str_eqb k key); [reflexivity|exact IH].
Qed.

Lemma group_keys (components : list Component) :
  forall acc groups,
    group_by_category acc components = inr groups ->
    map fst groups = firstSeen (map fst acc) (map component_category components).
Proof.
  induction components as [|c rest IH]; intros acc groups G; cbn [group_by_category] in G.
  - inversion G. reflexivity.
  - cbn [map firstSeen]. rewrite lookup_known.
    destruct (lookup acc (component_category c)) as [ns|].
    + rewrite (IH _ _ G), push_at_keys. reflexivity.
    + destruct (inherited (component_category c)); [discriminate G|].
      rewrite (IH _ _ G), map_app. reflexivity.
Qed.

Lemma firstSeen_in (keys : list jsstring) :
  forall seen k, In k (firstSeen seen keys) -> In k seen \/ In k keys.
Proof.
  induction keys as [|x keys IH]; intros seen k I; cbn [firstSeen] in I; [auto|].
  destruct (IH _ _ I) as [S|S]; [|right; right; exact S].
  destruct (known seen x); [left; exact S|].
  apply in_app_or in S. destruct S as [S|[<-|[]]]; [left; exact S|right; left; reflexivity].
Qed.

Lemma insert_nothing {V} (o : list (jsstring * V)) :
  (forall kv, In kv o -> array_index (fst kv) = None) ->
  forall acc,
    fold_left (fun acc kv =>
                 match array_index (fst kv) with
                 | Some i => insert_index i kv acc
                 | None => acc
                 end) o acc = acc.
Proof.
  induction o as [|kv o IH]; intros P acc; [reflexivity|].
  cbn [fold_left]. rewrite (P kv (or_introl eq_refl)).
  apply IH. intros kv' I. apply P. right. exact I.
Qed.

Lemma entries_plain {V} (o : list (jsstring * V)) :
  (forall kv, In kv o -> array_index (fst kv) = None) -> entries o = o.
Proof.
  intros P. unfold entries. rewrite (insert_nothing o P []). cbn [map app].
  induction o as [|kv o IH]; [reflexivity|].
  cbn [filter]. rewrite (P kv (or_introl eq_refl)). f_equal.
  apply IH. intros kv' I. apply P. right. exact I.
Qed.

(** The sections of a listing come in the order in which their
    categories first appear in the catalogue, as long as no category
    reads as an array index ([Object.entries] would put such a key
    first). *)
Theorem sections_follow_first_appearance
        (components : list Component) (groups : list (jsstring * list jsstring)) :
  unnumbered components ->
  group_by_category [] components = inr groups ->
  entries groups = groups /\
  map fst groups = firstSeen [] (map component_category components).
Proof.
  intros U G. pose proof (group_keys components [] groups G) as K. cbn [map] in K.
  split; [|exact K].
  apply entries_plain. intros kv I.
  assert (Ik : In (fst kv) (map fst groups)) by (apply in_map; exact I).
  rewrite K in Ik. destruct (firstSeen_in _ _ _ Ik) as [[]|Ic].
  apply in_map_iff in Ic. destruct Ic as (c & <- & Ic). exact (U c Ic).
Qed.

(** The sample catalogue has one category, hence one section. *)
Lemma sections_follow_first_appearance_witness :
  entries [(js "Components", [js "ProfileCard"; js "AnimatedList"])]
  = [(js "Components", [js "ProfileCard"; js "AnimatedList"])] /\
  map fst [(js "Components", [js "ProfileCard"; js "AnimatedList"])]
  = firstSeen [] (map component_category Sample.catalogue).
Proof.
  apply (sections_follow_first_appearance Sample.catalogue).
  - intros c [<-|[<-|[]]]; reflexivity.
  - reflexivity.
Defined.

(** *** [names.sort()] *)

Lemma str_ltb_asym (a : jsstring) : forall b, str_ltb a b = true -> str_ltb b a = false.
Proof.
  induction a as [|x a IH]; intros [|y b] L; try reflexivity; try discriminate L.
  cbn [str_ltb] in *.
  destruct (N.ltb_spec x y) as [Lt|Ge].
  - destruct (N.ltb_spec y x); [lia|].
    destruct (N.eqb_spec y x); [lia|reflexivity].
  - destruct (N.eqb_spec x y) as [->|NE]; [|discriminate L].
    rewrite N.ltb_irrefl, N.eqb_refl. exact (IH b L).
Qed.

Lemma str_leb_trans (a : jsstring) :
  forall b c, str_ltb b a = false -> str_ltb c b = false -> str_ltb c a = false.
Proof.
  induction a as [|x a IH]; intros b c H1 H2.
  - destruct c; reflexivity.
  - destruct b as [|y b]; [discriminate H1|].
    destruct c as [|z c]; [discriminate H2|].
    cbn [str_ltb] in *.
    destruct (N.ltb_spec y x); [discriminate H1|].
    destruct (N.ltb_spec z y); [discriminate H2|].
    destruct (N.ltb_spec z x); [lia|].
    destruct (N.eqb_spec z x) as [->|]; [|reflexivity].
    assert (y = x) by lia. subst y. rewrite N.eqb_refl in *.
    exact (IH b c H1 H2).
Qed.

Lemma insert_sorted_perm (x : jsstring) (l : list jsstring) :
  Permutation (insert_sorted x l) (x :: l).
Proof.
  induction l as [|y l IH]; cbn [insert_sorted]; [reflexivity|].
  destruct (str_ltb y x); [|reflexivity].
  rewrite IH. apply perm_swap.
Qed.

Lemma insert_sorted_ascending (x : jsstring) (l : list jsstring) :
  Ordering.ascending l -> Ordering.ascending (insert_sorted x l).
Proof.
  unfold Ordering.ascending.
  induction 1 as [|y l S IH F]; cbn [insert_sorted].
  - constructor; constructor.
  - destruct (str_ltb y x) eqn:L.
    + constructor; [exact IH|].
      rewrite (Forall_forall (fun b => str_ltb b y = false)).
      intros b I. apply (Permutation_in _ (insert_sorted_perm x l)) in I.
      destruct I as [<-|I]; [exact (str_ltb_asym y x L)|].
      rewrite Forall_forall in F. exact (F b I).
    + constructor; [constructor; assumption|].
      constructor; [exact L|].
      rewrite Forall_forall in *. intros b I.
      exact (str_leb_trans x y b L (F b I)).
Qed.

(** The names of a section are written in ascending code-unit order,
    each as often as the group holds it: [sort] neither drops nor
    repeats a name. *)
Theorem sort_orders_the_names (names : list jsstring) :
  Permutation (JS.sort names) names /\ Ordering.ascending (JS.sort names).
Proof.
  unfold JS.sort. induction names as [|x l [P A]]; cbn [fold_right].
  - split; [reflexivity|constructor].
  - split.
    + rewrite insert_sorted_perm. constructor. exact P.
    + apply insert_sorted_ascending. exact A.
Qed.

End GroupingFacts.

(** ** What the tool handlers read and what they answer *)

Module HandlerFacts.
Import Tools Lookups.

Lemma enum_optional_permitted (path : jsstring) (v : JSVal) (category : option jsstring) :
  Zod.enum_optional Zod.categories path v = inr category -> permitted category = true.
Proof.
  unfold Zod.enum_optional.
  destruct v as [ | | | |s| | ]; try discriminate.
  - intros X; inversion X. reflexivity.
  - destruct (includes Zod.categories s) eqn:I; [|discriminate].
    intros X; inversion X. exact I.
Qed.

Lemma listComponentsSchema_permitted (v : JSVal) (category : option jsstring) :
  Zod.listComponentsSchema v = inr category -> permitted category = true.
Proof.
  unfold Zod.listComponentsSchema. destruct v; try discriminate.
  apply enum_optional_permitted.
Qed.

Lemma searchComponentsSchema_permitted (v : JSVal) query (category : option jsstring) :
  Zod.searchComponentsSchema v = inr (query, category) -> permitted category = true.
Proof.
  unfold Zod.searchComponentsSchema. destruct v as [ | | | | | |fields]; try discriminate.
  destruct (Zod.string_ _ _); destruct (Zod.enum_optional _ _ _) eqn:E; try discriminate.
  intros X; inversion X; subst. exact (enum_optional_permitted _ _ _ E).
Qed.

(** The listing handlers ask the catalogue and the search index with a
    validated category only: none, or one of the four labels.  Whatever
    the catalogue and the index would answer for any other category has
    no bearing on what the handlers do. *)
Theorem category_is_checked_before_lookup
        (env : Collaborators)
        (catalogue : option jsstring -> Thrown + list Component)
        (index : jsstring -> option jsstring -> Thrown + list Component)
        (params : JSVal) (w : World) :
  (forall category,
      permitted category = true ->
      catalogue category = getAvailableComponents env category) ->
  (forall query category,
      permitted category = true ->
      index query category = searchComponents env query category) ->
  handleListComponents (withCatalogue env catalogue) params w
  = handleListComponents env params w /\
  handleSearchComponents (withSearch env index) params w
  = handleSearchComponents env params w.
Proof.
  intros C I. split.
  - unfold handleListComponents, try_catch, handleListComponents_try, bind, await.
    cbn [withCatalogue validateAndSanitizeParams getAvailableComponents].
    destruct (validateAndSanitizeParams env (js "list_components") params) as [e|v];
      [reflexivity|].
    destruct (Zod.listComponentsSchema v) as [issues|category] eqn:S; [reflexivity|].
    cbn [zodError]. rewrite (C category (listComponentsSchema_permitted v category S)).
    reflexivity.
  - unfold handleSearchComponents, try_catch, handleSearchComponents_try, bind, await.
    cbn [withSearch validateAndSanitizeParams searchComponents].
    destruct (validateAndSanitizeParams env (js "search_components") params) as [e|v];
      [reflexivity|].
    destruct (Zod.searchComponentsSchema v) as [issues|[query category]] eqn:S;
      [reflexivity|].
    cbn [zodError].
    rewrite (I query category (searchComponentsSchema_permitted v query category S)).
    reflexivity.
Qed.

(** A catalogue and an index that fail outside the four labels serve
    the listing handlers as well as the unguarded ones. *)
Lemma category_is_checked_before_lookup_witness :
  let params :=
    VObj [(js "query", VStr (js "card")); (js "category", VStr (js "Components"))] in
  handleListComponents (withCatalogue Sample.collaborators guardedCatalogue)
                       params Sample.start
  = handleListComponents Sample.collaborators params Sample.start /\
  handleSearchComponents (withSearch Sample.collaborators guardedSearch)
                         params Sample.start
  = handleSearchComponents Sample.collaborators params Sample.start.
Proof.
  apply (category_is_checked_before_lookup
           Sample.collaborators guardedCatalogue guardedSearch).
  - intros category P. unfold guardedCatalogue. rewrite P. reflexivity.
  - intros query category P. unfold guardedSearch. rewrite P. reflexivity.
Defined.

(** get_component, get_component_demo and get_component_metadata read
    nothing of their sanitised arguments but [componentName]: two calls
    whose sanitised arguments agree on it are answered alike and leave
    the same log.  The [category] that list_tools announces for these
    three tools has no effect. *)
Theorem only_the_component_name_is_read
        (env : Collaborators) (name : jsstring) (handler : JSVal -> H Envelope)
        (params1 params2 : JSVal) (fields1 fields2 : list (jsstring * JSVal))
        (w : World) :
  In (name, handler) (byComponentName env) ->
  validateAndSanitizeParams env name params1 = inr (VObj fields1) ->
  validateAndSanitizeParams env name params2 = inr (VObj fields2) ->
  prop fields1 (js "componentName") = prop fields2 (js "componentName") ->
  handler params1 w = handler params2 w.
Proof.
  intros I V1 V2 P.
  destruct I as [X|[X|[X|[]]]]; inversion X; subst name handler; clear X.
  - unfold handleGetComponent, try_catch, handleGetComponent_try, bind, await.
    rewrite V1, V2. unfold Zod.componentNameSchema. rewrite P. reflexivity.
  - unfold handleGetComponentDemo, try_catch, handleGetComponentDemo_try, bind, await.
    rewrite V1, V2. unfold Zod.componentNameSchema. rewrite P. reflexivity.
  - unfold handleGetComponentMetadata, try_catch, handleGetComponentMetadata_try,
      bind, await.
    rewrite V1, V2. unfold Zod.componentNameSchema. rewrite P. reflexivity.
Qed.

(** Asking for AnimatedList with and without a category. *)
Lemma only_the_component_name_is_read_witness :
  handleGetComponent Sample.collaborators
    (VObj [(js "componentName", VStr (js "AnimatedList"));
           (js "category", VStr (js "Backgrounds"))]) Sample.start
  = handleGetComponent Sample.collaborators
      (VObj [(js "componentName", VStr (js "AnimatedList"))]) Sample.start.
Proof.
  apply (only_the_component_name_is_read
           Sample.collaborators (js "get_component")
           (handleGetComponent Sample.collaborators) _ _
           [(js "componentName", VStr (js "AnimatedList"));
            (js "category", VStr (js "Backgrounds"))]
           [(js "componentName", VStr (js "AnimatedList"))]).
  - left. reflexivity.
  - reflexivity.
  - reflexivity.
  - reflexivity.
Defined.

(** What get_component and get_component_demo answer once the name is
    validated: the text the lookup found; a text saying the component
    was not found when the lookup found nothing or found the empty
    text; the lookup's own failure, under the handler's prefix.  In no
    case is anything thrown. *)
Theorem empty_text_counts_as_not_found
        (env : Collaborators) (params : JSVal) (componentName : jsstring) (w : World) :
  (validated env (js "get_component") Zod.componentNameSchema params
   = inr componentName ->
   fst (handleGetComponent env params w)
   = inr (text_content
            match getComponentSource env componentName with
            | inr (Some (c :: sourceCode)) => c :: sourceCode
            | inr _ =>
                js "Error retrieving component: Component '" ++ componentName
                ++ js "' not found"
            | inl error => js "Error retrieving component: " ++ errorMessage error
            end)) /\
  (validated env (js "get_component_demo") Zod.componentNameSchema params
   = inr componentName ->
   fst (handleGetComponentDemo env params w)
   = inr (text_content
            match getComponentDemo env componentName with
            | inr (Some (c :: demoCode)) => c :: demoCode
            | inr _ =>
                js "Error retrieving component demo: Demo for component '"
                ++ componentName ++ js "' not found"
            | inl error => js "Error retrieving component demo: " ++ errorMessage error
            end)).
Proof.
  split; intros V; unfold validated in V.
  - unfold handleGetComponent, try_catch, handleGetComponent_try, bind, await.
    destruct (validateAndSanitizeParams env (js "get_component") params) as [e|v];
      [discriminate V|].
    rewrite V.
    destruct (getComponentSource env componentName) as [e|[[|c s]|]]; reflexivity.
  - unfold handleGetComponentDemo, try_catch, handleGetComponentDemo_try, bind, await.
    destruct (validateAndSanitizeParams env (js "get_component_demo") params) as [e|v];
      [discriminate V|].
    rewrite V.
    destruct (getComponentDemo env componentName) as [e|[[|c s]|]]; reflexivity.
Qed.

(** An empty source file, and a demo that is missing. *)
Lemma empty_text_counts_as_not_found_witness :
  let params := VObj [(js "componentName", VStr (js "Blank"))] in
  fst (handleGetComponent blankFiles params Sample.start)
  = inr (text_content (js "Error retrieving component: Component 'Blank' not found")) /\
  fst (handleGetComponentDemo blankFiles params Sample.start)
  = inr (text_content
           (js "Error retrieving component demo: Demo for component 'Blank' not found")).
Proof.
  intros params.
  pose proof (empty_text_counts_as_not_found blankFiles params (js "Blank") Sample.start)
    as [Source Demo].
  split; [exact (Source eq_refl)|exact (Demo eq_refl)].
Defined.

(** A component filed under a name that every object inherits -
    [constructor], [toString], [__proto__] and the like - breaks the
    listing: list_components and search_components then answer with the
    TypeError of the grouping as text, and list no component at all. *)
Theorem inherited_category_breaks_the_listing
        (env : Collaborators) (params : JSVal) (w : World)
        (query : jsstring) (category : option jsstring) (components : list Component) :
  Grouping.groupable components = false ->
  (validated env (js "list_components") Zod.listComponentsSchema params = inr category ->
   getAvailableComponents env category = inr components ->
   fst (handleListComponents env params w)
   = inr (text_content
            (js "Error listing components: acc[component.category].push is not a function")))
  /\
  (validated env (js "search_components") Zod.searchComponentsSchema params
   = inr (query, category) ->
   searchComponents env query category = inr components ->
   fst (handleSearchComponents env params w)
   = inr (text_content
            (js "Error searching components: acc[component.category].push is not a function"))).
Proof.
  intros G.
  assert (T : Grouping.tidy []) by (split; constructor).
  destruct components as [|c rest]; [discriminate G|].
  pose proof (GroupingFacts.group_fails (c :: rest) [] T G) as F.
  split; intros V L; unfold validated in V.
  - unfold handleListComponents, try_catch, handleListComponents_try, bind, await.
    destruct (validateAndSanitizeParams env (js "list_components") params) as [e|v];
      [discriminate V|].
    rewrite V, L, F. reflexivity.
  - unfold handleSearchComponents, try_catch, handleSearchComponents_try, bind, await.
    destruct (validateAndSanitizeParams env (js "search_components") params) as [e|v];
      [discriminate V|].
    rewrite V, L, F. reflexivity.
Qed.

(** Listing an installation with a component filed under [constructor]. *)
Lemma inherited_category_breaks_the_listing_witness :
  fst (handleListComponents oddCatalogue (VObj []) Sample.start)
  = inr (text_content
           (js "Error listing components: acc[component.category].push is not a function")).
Proof.
  apply (proj1 (inherited_category_breaks_the_listing
                  oddCatalogue (VObj []) Sample.start [] None
                  [ {| component_name := js "ProfileCard";
                       component_category := js "Components" |};
                    {| component_name := js "Widget";
                       component_category := js "constructor" |} ]
                  eq_refl));
    reflexivity.
Defined.

End HandlerFacts.

(** ** Requests in sequence: the log and the breaker *)

Module TrafficFacts.
Import Tools Dispatch Traffic.









Lemma registered_handler_cases (env : Collaborators) (name : jsstring)
      (handler : JSVal -> H Envelope) :
  lookup (toolHandlers env) name = Some handler ->
  handler = handleGetComponent env \/
  handler = handleGetComponentDemo env \/
  handler = handleListComponents env \/
  handler = handleGetComponentMetadata env \/
  handler = handleSearchComponents env.
Proof.
  unfold toolHandlers. cbn [lookup].
  repeat match goal with
         | |- context [str_eqb ?a name] => destruct (str_eqb a name)
         end;
    intros X; inversion X; auto 6.
Qed.


Lemma execute_await {A} (error : Thrown) (answer : Thrown + A)
      (st : Breaker.CircuitBreakerState) (w : World) :
  Breaker.execute now error (await answer) st w
  = match Breaker.gate st (now w) with
    | None => (inl error, st, w)
    | Some st1 => (answer, Breaker.settle st1 answer (now w), w)
    end.
Proof. reflexivity. Qed.

(** The table lists none of the names it inherits. *)
Lemma inherited_names_are_not_listed (env : Collaborators) (name : jsstring) :
  inherited name = true -> lookup (toolHandlers env) name = None.
Proof.
  unfold inherited, includes, objectPrototypeNames. cbn [existsb]. intros I.
  repeat (apply orb_true_iff in I; destruct I as [I|I]);
    try discriminate I; apply str_eqb_spec in I; subst name; reflexivity.
Qed.

Section Requests.

Variable env : Collaborators.
Variable reg : Registry.



Lemma serve_keeps_closed (request : Request) (srv : Server) :
  namesInherited request = false ->
  Breaker.status (breaker srv) = Breaker.Closed ->
  Breaker.status (breaker (snd (serve env reg request srv))) = Breaker.Closed.
Proof.
  intros O S. destruct request as [m params].
  assert (Other : m <> CallTool ->
                  Breaker.status
                    (breaker (snd (serve env reg {| method := m; params := params |} srv)))
                  = Breaker.Closed).
  { intros NE.
    rewrite (proj1 (DispatchFacts.other_requests_bypass_the_breaker
                      env reg m params srv NE)).
    exact S. }
  destruct m; try (apply Other; discriminate). clear Other.
  destruct params as [ | | | | |items|fields]; try exact S.
  unfold namesInherited in O. cbn [method Dispatch.params] in O.
  destruct (prop fields (js "name")) as [ | | | |[|c name]| | ] eqn:N;
    try (unfold serve, handleRequest, requestHandler, callTool;
         cbn [method Dispatch.params]; rewrite N; exact S).
  destruct (lookup (toolHandlers env) (c :: name)) as [handler|] eqn:L.
  - destruct (DispatchFacts.let_through_call
                env reg fields (c :: name) handler srv N L (or_introl S))
      as (s & w & _ & R).
    rewrite R. reflexivity.
  - unfold serve, handleRequest, requestHandler, callTool.
    cbn [method Dispatch.params]. rewrite N, L, O. exact S.
Qed.

(** The registered tools cannot trip the breaker.  Every tool handler
    turns its failures into text, so the call the breaker wraps for it
    never fails: starting from a Closed breaker, whatever requests
    arrive and however their lookups fail, the breaker is Closed after
    each of them - as long as no call-tool request names a property
    that the handler table inherits from [Object.prototype]. *)
Theorem breaker_never_opens (requests : list Request) (srv : Server) :
  forallb (fun request => negb (namesInherited request)) requests = true ->
  Breaker.status (breaker srv) = Breaker.Closed ->
  Breaker.status (breaker (serveAll env reg requests srv)) = Breaker.Closed.
Proof.
  unfold serveAll. revert srv.
  induction requests as [|request rest IH]; intros srv O S; [exact S|].
  cbn [forallb] in O. apply andb_true_iff in O. destruct O as [Or O].
  apply negb_true_iff in Or.
  cbn [fold_left]. apply IH; [exact O|]. apply serve_keeps_closed; assumption.
Qed.

(** What a call of an inherited name that throws does to a Closed
    breaker. *)
Lemma inherited_failure (name : jsstring) (arguments : JSVal) (error : Thrown)
      (srv : Server) :
  inherited name = true ->
  inheritedCall reg name (orEmptyObject arguments) = Some (inl error) ->
  Breaker.status (breaker srv) = Breaker.Closed ->
  fst (serve env reg (call name arguments) srv) = Raised error /\
  breaker (snd (serve env reg (call name arguments) srv))
  = Breaker.on_failure (breaker srv) (now (world srv)).
Proof.
  intros I C S. pose proof (inherited_names_are_not_listed env name I) as L.
  destruct name as [|c name]; [discriminate I|].
  unfold call, serve, handleRequest, requestHandler, callTool.
  cbn [method Dispatch.params operationName].
  change (prop [(js "name", VStr (c :: name)); (js "arguments", arguments)] (js "name"))
    with (VStr (c :: name)).
  change (prop [(js "name", VStr (c :: name)); (js "arguments", arguments)]
               (js "arguments"))
    with arguments.
  cbv beta iota zeta.
  rewrite L, I, C, execute_await. cbn [logged breaker world record now].
  unfold Breaker.gate. rewrite S. split; reflexivity.
Qed.

(** The names the handler table inherits do trip the breaker.  A
    call-tool request for such a name finds a value on
    [Object.prototype] and calls it inside the breaker; when the call
    throws - as it does for [valueOf], [__proto__], [hasOwnProperty]
    and most others - the request is raised and the breaker counts a
    failure.  From a Closed breaker, as many such requests as its
    threshold still allows leave it Open. *)
Theorem inherited_names_trip_the_breaker
        (name : jsstring) (arguments : JSVal) (error : Thrown) (k : nat) :
  inherited name = true ->
  inheritedCall reg name (orEmptyObject arguments) = Some (inl error) ->
  forall srv,
    Breaker.status (breaker srv) = Breaker.Closed ->
    (Breaker.consecutiveFailures (breaker srv) + N.of_nat (S k)
     = Breaker.failureThreshold (breaker srv))%N ->
    fst (serve env reg (call name arguments) srv) = Raised error /\
    Breaker.status
      (breaker (serveAll env reg (repeat (call name arguments) (S k)) srv))
    = Breaker.Open.
Proof.
  intros I C. induction k as [|k IH]; intros srv S T;
    destruct (inherited_failure name arguments error srv I C S) as [R B];
    (split; [exact R|]);
    unfold serveAll; cbn [repeat fold_left]; fold (serveAll env reg).
  - unfold serveAll. cbn [fold_left]. rewrite B. unfold Breaker.on_failure. rewrite S.
    destruct (N.leb_spec (Breaker.failureThreshold (breaker srv))
                         (Breaker.consecutiveFailures (breaker srv) + 1));
      [reflexivity|lia].
  - refine (proj2 (IH _ _ _)).
    + rewrite B. unfold Breaker.on_failure. rewrite S.
      destruct (N.leb_spec (Breaker.failureThreshold (breaker srv))
                           (Breaker.consecutiveFailures (breaker srv) + 1));
        [lia|reflexivity].
    + rewrite B. unfold Breaker.on_failure. rewrite S.
      destruct (N.leb_spec (Breaker.failureThreshold (breaker srv))
                           (Breaker.consecutiveFailures (breaker srv) + 1));
        cbn [Breaker.consecutiveFailures Breaker.failureThreshold]; lia.
Qed.

(** Name resolution comes before the breaker.  A call-tool request
    whose name is missing, not a string or empty is refused with
    [Tool name is required], and one whose name the handler table
    neither lists nor inherits from [Object.prototype] with
    [Tool not found: ...]; the breaker is neither asked nor told, so
    the answer is the same when the breaker is Open. *)
Theorem unusable_names_never_reach_the_breaker
        (fields : list (jsstring * JSVal)) (srv : Server) :
  unresolved env (prop fields (js "name")) ->
  let error := Error (nameError (prop fields (js "name"))) in
  serve env reg {| method := CallTool; params := VObj fields |} srv
  = (Raised error,
     logged (failed (js "call_tool") error)
            (logged (handling (js "call_tool") (VObj fields)) srv)).
Proof.
  intros U error. subst error.
  unfold serve, handleRequest, requestHandler, callTool.
  cbn [method Dispatch.params operationName].
  destruct (prop fields (js "name")) as [ | | | |[|c name]| | ]; try reflexivity.
  destruct U as [L I]. rewrite L, I. reflexivity.
Qed.

End Requests.

Lemma oblivious_ret {A} (a : A) : oblivious (ret a).
Proof. intros w1 w2. reflexivity. Qed.

Lemma oblivious_throw {A} (e : Thrown) : oblivious (@throw A e).
Proof. intros w1 w2. reflexivity. Qed.

Lemma oblivious_await {A} (r : Thrown + A) : oblivious (await r).
Proof. intros w1 w2. reflexivity. Qed.

Lemma oblivious_logInfo (message : jsstring) : oblivious (logInfo message).
Proof. intros w1 w2. reflexivity. Qed.

Lemma oblivious_logError (message : jsstring) (e : Thrown) :
  oblivious (logError message e).
Proof. intros w1 w2. reflexivity. Qed.

Lemma oblivious_bind {A B} (c : H A) (k : A -> H B) :
  oblivious c -> (forall a, oblivious (k a)) -> oblivious (bind c k).
Proof.
  intros C K w1 w2. unfold bind. pose proof (C w1 w2) as E.
  destruct (c w1) as [[e1|a1] v1], (c w2) as [[e2|a2] v2]; cbn [fst] in E;
    try discriminate E.
  - inversion E. reflexivity.
  - inversion E; subst a2. apply K.
Qed.

Lemma oblivious_try_catch {A} (body : H A) (handler : Thrown -> H A) :
  oblivious body -> (forall e, oblivious (handler e)) -> oblivious (try_catch body handler).
Proof.
  intros C K w1 w2. unfold try_catch. pose proof (C w1 w2) as E.
  destruct (body w1) as [[e1|a1] v1], (body w2) as [[e2|a2] v2]; cbn [fst] in E;
    try discriminate E.
  - inversion E; subst e2. apply K.
  - exact E.
Qed.

Ltac forget_the_world :=
  repeat first
    [ apply oblivious_ret
    | apply oblivious_throw
    | apply oblivious_await
    | apply oblivious_logInfo
    | apply oblivious_logError
    | apply oblivious_try_catch; intros
    | apply oblivious_bind; intros
    | match goal with
      | |- oblivious (if ?b then _ else _) => destruct b
      | |- oblivious (let '(_, _) := ?x in _) => destruct x
      | |- oblivious (match ?x with _ => _ end) => destruct x
      end ].

(** What a tool handler answers depends on its parameters and on the
    lookups, not on the log or the clock. *)
Lemma tool_handlers_are_oblivious (env : Collaborators) (name : jsstring)
      (handler : JSVal -> H Envelope) (params : JSVal) :
  lookup (toolHandlers env) name = Some handler -> oblivious (handler params).
Proof.
  intros L.
  destruct (registered_handler_cases env name handler L) as [->|[->|[->|[->| ->]]]].
  - unfold handleGetComponent, handleGetComponent_try, user_friendly. forget_the_world.
  - unfold handleGetComponentDemo, handleGetComponentDemo_try, user_friendly.
    forget_the_world.
  - unfold handleListComponents, handleListComponents_try, user_friendly.
    forget_the_world.
  - unfold handleGetComponentMetadata, handleGetComponentMetadata_try, user_friendly.
    forget_the_world.
  - unfold handleSearchComponents, handleSearchComponents_try, user_friendly.
    forget_the_world.
Qed.

Lemma execute_twice (error : Thrown) (c : H Envelope)
      (st : Breaker.CircuitBreakerState) (w1 w2 : World) :
  now w1 = now w2 ->
  oblivious c ->
  (forall w, exists s v, c w = (inr (text_content s), v)) ->
  exists r b v1 v2,
    Breaker.execute now error c st w1 = (r, b, v1) /\
    Breaker.execute now error c st w2 = (r, b, v2).
Proof.
  intros N O R. unfold Breaker.execute. rewrite N.
  destruct (Breaker.gate st (now w2)) as [st1|];
    [|do 4 eexists; split; reflexivity].
  destruct (R w1) as (s1 & v1 & R1). destruct (R w2) as (s2 & v2 & R2).
  pose proof (O w1 w2) as X. rewrite R1, R2 in X. cbn [fst] in X.
  inversion X; subst s2.
  rewrite R1, R2. cbn [Breaker.settle]. do 4 eexists. split; reflexivity.
Qed.

(** [params || {}]: a tool called with arguments that are missing or
    falsy - [undefined], [null], [false], [0], the empty string - is
    answered as the same tool called with the empty object, and leaves
    the breaker in the same state. *)
Theorem falsy_arguments_are_the_empty_object
        (env : Collaborators) (reg : Registry)
        (name : jsstring) (arguments : JSVal) (srv : Server) :
  truthy arguments = false ->
  fst (serve env reg (call name arguments) srv)
  = fst (serve env reg (call name (VObj [])) srv) /\
  breaker (snd (serve env reg (call name arguments) srv))
  = breaker (snd (serve env reg (call name (VObj [])) srv)).
Proof.
  intros F. unfold call.
  assert (N1 : prop [(js "name", VStr name); (js "arguments", arguments)] (js "name")
               = VStr name) by reflexivity.
  assert (N2 : prop [(js "name", VStr name); (js "arguments", VObj [])] (js "name")
               = VStr name) by reflexivity.
  assert (A1 : orEmptyObject
                 (prop [(js "name", VStr name); (js "arguments", arguments)]
                       (js "arguments"))
               = VObj []).
  { change (prop [(js "name", VStr name); (js "arguments", arguments)] (js "arguments"))
      with arguments.
    unfold orEmptyObject. rewrite F. reflexivity. }
  assert (A2 : orEmptyObject
                 (prop [(js "name", VStr name); (js "arguments", VObj [])]
                       (js "arguments"))
               = VObj []) by reflexivity.
  destruct (lookup (toolHandlers env) name) as [handler|] eqn:L.
  - rewrite (DispatchFacts.serve_call env reg _ name handler srv N1 L).
    rewrite (DispatchFacts.serve_call env reg _ name handler srv N2 L).
    cbv zeta. rewrite A1, A2.
    destruct (execute_twice
                (CircuitOpenError reg) (handler (VObj [])) (breaker srv)
                (world (logged (handling (js "call_tool")
                                         (VObj [(js "name", VStr name);
                                                (js "arguments", arguments)])) srv))
                (world (logged (handling (js "call_tool")
                                         (VObj [(js "name", VStr name);
                                                (js "arguments", VObj [])])) srv))
                eq_refl
                (tool_handlers_are_oblivious env name handler (VObj []) L)
                (fun w => ToolFacts.handler_returns env name handler (VObj []) w L))
      as (r & b & v1 & v2 & E1 & E2).
    rewrite E1, E2. destruct r; split; reflexivity.
  - unfold serve, handleRequest, requestHandler, callTool.
    cbn [method Dispatch.params operationName]. rewrite N1, N2.
    destruct name as [|c name]; [split; reflexivity|].
    rewrite L. destruct (inherited (c :: name)); [|split; reflexivity].
    rewrite A1, A2.
    destruct (inheritedCall reg (c :: name) (VObj [])) as [answer|];
      [|split; reflexivity].
    rewrite !execute_await. cbn [logged breaker world record now].
    destruct (Breaker.gate (breaker srv) (now (world srv))); [|split; reflexivity].
    destruct answer; split; reflexivity.
Qed.

(** list_components called with [null] for arguments. *)
Lemma falsy_arguments_are_the_empty_object_witness :
  fst (serve Sample.collaborators Sample.registry
             (call (js "list_components") VNull) Sample.closedServer)
  = fst (serve Sample.collaborators Sample.registry
               (call (js "list_components") (VObj [])) Sample.closedServer).
Proof.
  apply (falsy_arguments_are_the_empty_object
           Sample.collaborators Sample.registry (js "list_components") VNull
           Sample.closedServer).
  reflexivity.
Defined.

(** Three requests in a row, two of which fail inside their handler or
    before it. *)
Lemma breaker_never_opens_witness :
  Breaker.status
    (breaker
       (serveAll Sample.collaborators Sample.registry
                 [ Sample.callOf (js "get_component")
                                 (VObj [(js "componentName", VStr (js "Nope"))]);
                   Sample.callOf (js "nope") VUndef;
                   Sample.callOf (js "search_components") (VObj []) ]
                 Sample.closedServer))
  = Breaker.Closed.
Proof.
  apply (breaker_never_opens Sample.collaborators Sample.registry); reflexivity.
Defined.

(** Five calls of [valueOf] open the breaker of the sample server,
    whose threshold is 5. *)
Lemma inherited_names_trip_the_breaker_witness :
  fst (serve Sample.collaborators Sample.registry
             (call (js "valueOf") (VObj [])) Sample.closedServer)
  = Raised (TypeError (js "Cannot convert undefined or null to object")) /\
  Breaker.status
    (breaker
       (serveAll Sample.collaborators Sample.registry
                 (repeat (call (js "valueOf") (VObj [])) 5) Sample.closedServer))
  = Breaker.Open.
Proof.
  apply (inherited_names_trip_the_breaker
           Sample.collaborators Sample.registry (js "valueOf") (VObj [])
           (TypeError (js "Cannot convert undefined or null to object")) 4);
    reflexivity.
Defined.

(** An unknown name while the breaker is Open. *)
Lemma unusable_names_never_reach_the_breaker_witness :
  fst (serve Sample.collaborators Sample.registry
             (Sample.callOf (js "nope") VUndef) Sample.openServer)
  = Raised (Error (js "Tool not found: nope")).
Proof.
  unfold Sample.callOf.
  rewrite (unusable_names_never_reach_the_breaker
             Sample.collaborators Sample.registry
             [(js "name", VStr (js "nope")); (js "arguments", VUndef)]
             Sample.openServer).
  - reflexivity.
  - split; reflexivity.
Defined.

End TrafficFacts.

(** ** What the server announces and what it can do *)

Module AnnounceFacts.
Import Tools Dispatch Traffic DispatcherSchemas.

Lemma find_descriptor (n description : jsstring) (properties : list (jsstring * JSVal))
      (required : list jsstring) (rest : list JSVal) (name : jsstring) :
  find (fun d => match d with
                 | VObj fields =>
                     match prop fields (js "name") with
                     | VStr n => str_eqb n name
                     | _ => false
                     end
                 | _ => false
                 end) (descriptor n description properties required :: rest)
  = if str_eqb n name then Some (descriptor n description properties required)
    else find (fun d => match d with
                        | VObj fields =>
                            match prop fields (js "name") with
                            | VStr n => str_eqb n name
                            | _ => false
                            end
                        | _ => false
                        end) rest.
Proof. reflexivity. Qed.

Lemma announced_is_listed (env : Collaborators) (name : jsstring) :
  (exists d, descriptorOf name = Some d)
  <-> (exists handler, lookup (toolHandlers env) name = Some handler).
Proof.
  unfold descriptorOf, registeredTools, toolHandlers.
  rewrite !find_descriptor. cbn [find lookup].
  repeat match goal with
         | |- context [str_eqb ?a name] => destruct (str_eqb a name)
         end;
    split; intros [x X]; try discriminate X; eauto.
Qed.

Lemma not_raised_as_Error (name message message' : jsstring) :
  name <> js "Error" ->
  @Raised Response (ErrorObj name message) <> Raised (Error message').
Proof. intros NE X. inversion X. contradiction. Qed.

Lemma inheritedCall_throws_TypeError (reg : Registry) (name : jsstring)
      (argument : JSVal) (error : Thrown) :
  inheritedCall reg name argument = Some (inl error) ->
  exists message, error = TypeError message.
Proof.
  unfold inheritedCall.
  destruct (str_eqb name (js "constructor"));
    [destruct (isObject argument); discriminate|].
  destruct (str_eqb name (js "toString")); [discriminate|].
  destruct (str_eqb name (js "isPrototypeOf") && negb (isObject argument));
    [discriminate|].
  intros X; inversion X. eauto.
Qed.

(** What list_tools announces and what call_tool runs.  A name has a
    descriptor in the list of handler.js exactly when the table of
    tools/index.js lists it, and both list the names in the same order.
    call_tool reads the table through the prototype chain: it finds a
    value for the announced names and for the names the table inherits
    from [Object.prototype], none of which is announced, and refuses
    exactly the other names with [Tool not found]. *)
Theorem callable_names_are_announced_or_inherited (env : Collaborators) :
  (forall name,
      (exists d, descriptorOf name = Some d)
      <-> (exists handler, lookup (toolHandlers env) name = Some handler)) /\
  announcedNames registeredTools = map fst (toolHandlers env) /\
  (forall name,
      callable env name = true
      <-> (exists d, descriptorOf name = Some d) \/ inherited name = true) /\
  (forall name d, descriptorOf name = Some d -> inherited name = false) /\
  (forall reg fields c rest srv,
      prop fields (js "name") = VStr (c :: rest) ->
      (callable env (c :: rest) = false
       <-> fst (serve env reg {| method := CallTool; params := VObj fields |} srv)
           = Raised (Error (js "Tool not found: " ++ c :: rest)))).
Proof.
  split; [exact (announced_is_listed env)|]. split; [reflexivity|].
  split; [|split].
  - intros name. unfold callable.
    destruct (lookup (toolHandlers env) name) as [handler|] eqn:L.
    + split; [|reflexivity]. intros _. left. apply (announced_is_listed env). eauto.
    + split; [intros I; right; exact I|].
      intros [D|I]; [|exact I].
      apply (announced_is_listed env) in D. destruct D as [h D].
      rewrite L in D. discriminate D.
  - intros name d D.
    assert (A : exists handler, lookup (toolHandlers env) name = Some handler)
      by (apply (announced_is_listed env); eauto).
    destruct A as [handler L].
    destruct (inherited name) eqn:I; [|reflexivity].
    rewrite (TrafficFacts.inherited_names_are_not_listed env name I) in L.
    discriminate L.
  - intros reg fields c rest srv N. unfold callable.
    destruct (lookup (toolHandlers env) (c :: rest)) as [handler|] eqn:L.
    + split; [discriminate|]. intros X. exfalso.
      rewrite (DispatchFacts.serve_call env reg fields (c :: rest) handler srv N L) in X.
      cbv zeta in X. unfold Breaker.execute in X.
      destruct (Breaker.gate _ _) as [st|].
      * destruct (ToolFacts.handler_returns
                    env (c :: rest) handler (orEmptyObject (prop fields (js "arguments")))
                    (world (logged (handling (js "call_tool") (VObj fields)) srv)) L)
          as (s & w & R).
        rewrite R in X. discriminate X.
      * cbn [fst] in X. revert X. apply not_raised_as_Error.
        intros E. vm_compute in E. discriminate E.
    + unfold serve, handleRequest, requestHandler, callTool.
      cbn [method Dispatch.params operationName]. rewrite N, L.
      destruct (inherited (c :: rest)); [|split; reflexivity].
      split; [discriminate|]. intros X. exfalso.
      destruct (inheritedCall reg (c :: rest) _) as [answer|] eqn:C;
        [|discriminate X].
      rewrite TrafficFacts.execute_await in X.
      destruct (Breaker.gate _ _) as [st|].
      * destruct answer as [error|value]; [|discriminate X].
        destruct (inheritedCall_throws_TypeError _ _ _ _ C) as [message ->].
        cbn [fst settled mapOutcome] in X. revert X. apply not_raised_as_Error.
        intros E. vm_compute in E. discriminate E.
      * cbn [fst settled mapOutcome] in X. revert X. apply not_raised_as_Error.
        intros E. vm_compute in E. discriminate E.
Qed.

(** [valueOf] is callable and not announced; [nope] is refused. *)
Lemma callable_names_are_announced_or_inherited_witness :
  callable Sample.collaborators (js "valueOf") = true /\
  descriptorOf (js "valueOf") = None /\
  fst (serve Sample.collaborators Sample.registry
             (Sample.callOf (js "nope") VUndef) Sample.closedServer)
  = Raised (Error (js "Tool not found: " ++ js "nope")).
Proof.
  pose proof (callable_names_are_announced_or_inherited Sample.collaborators)
    as (_ & _ & Callable & _ & Refused).
  split; [|split].
  - apply (proj2 (Callable (js "valueOf"))). right. reflexivity.
  - reflexivity.
  - apply (proj1 (Refused Sample.registry
                          [(js "name", VStr (js "nope")); (js "arguments", VUndef)]
                          110%N (js "ope") Sample.closedServer eq_refl)).
    reflexivity.
Defined.

(** Of the seven kinds of request, listing the resource templates is
    the one that cannot succeed: the name [resourceTemplates] is bound
    nowhere in handler.js, so the request is raised as a ReferenceError
    whatever the registry, the parameters and the state.  Each of the
    other kinds returns on the sample installation. *)
Theorem template_listing_always_fails :
  (forall env reg params srv,
      let error := ReferenceError (js "resourceTemplates is not defined") in
      serve env reg {| method := ListResourceTemplates; params := params |} srv
      = (Raised error,
         logged (failed (js "list_resource_templates") error)
                (logged (handling (js "list_resource_templates") params) srv))) /\
  (forall m,
      m <> ListResourceTemplates ->
      exists response,
        fst (serve Sample.collaborators promptRegistry
                   {| method := m; params := sampleParams m |} Sample.closedServer)
        = Returned response).
Proof.
  split; [reflexivity|].
  intros m NE. destruct m; try contradiction; eexists; vm_compute; reflexivity.
Qed.

(** Listing the tools returns. *)
Lemma template_listing_always_fails_witness :
  exists response,
    fst (serve Sample.collaborators promptRegistry
               {| method := ListTools; params := VUndef |} Sample.closedServer)
    = Returned response.
Proof.
  apply (proj2 template_listing_always_fails ListTools). discriminate.
Defined.





End AnnounceFacts.

(** ** The command line *)

Module StartupMoreFacts.
Import Dispatch Startup StartupMore.

Lemma afterKeyFlag_first (before : list jsstring) (flag : jsstring) (rest : list jsstring) :
  keyFlagFree before = true ->
  isKeyFlag flag = true ->
  afterKeyFlag (before ++ flag :: rest) = hd_error rest.
Proof.
  intros F K. induction before as [|a before IH]; cbn [app afterKeyFlag].
  - rewrite K. destruct rest; reflexivity.
  - cbn [keyFlagFree forallb] in F. apply andb_true_iff in F. destruct F as [Fa F].
    apply negb_true_iff in Fa. rewrite Fa. exact (IH F).
Qed.

Lemma afterKeyFlag_none (args : list jsstring) :
  keyFlagFree args = true -> afterKeyFlag args = None.
Proof.
  induction args as [|a args IH]; intros F; [reflexivity|].
  cbn [keyFlagFree forallb] in F. apply andb_true_iff in F. destruct F as [Fa F].
  apply negb_true_iff in Fa. cbn [afterKeyFlag]. rewrite Fa. exact (IH F).
Qed.

Lemma nonEmpty_hd_error (rest : list jsstring) : nonEmpty (hd_error rest) = valueIn rest.
Proof. destruct rest as [|[|c value] rest]; reflexivity. Qed.

(** Where the key comes from, when neither help nor the version is
    asked for.  The first occurrence of [--github-api-key] or [-g]
    decides: the key is the argument right behind it, whatever that
    argument is, and later occurrences are not looked at.  When that
    argument is missing or empty, or when there is no such flag, the
    key is the environment variable, or none when that is unset or
    empty. *)
Theorem first_key_flag_decides (p : Process) :
  asksForHelpOrVersion p = false ->
  (forall before flag rest,
      args p = before ++ flag :: rest ->
      keyFlagFree before = true ->
      isKeyFlag flag = true ->
      parseArgs p
      = Options match valueIn rest with
                | Some key => Some key
                | None => nonEmpty (GITHUB_PERSONAL_ACCESS_TOKEN p)
                end) /\
  (keyFlagFree (args p) = true ->
   parseArgs p = Options (nonEmpty (GITHUB_PERSONAL_ACCESS_TOKEN p))).
Proof.
  intros H. unfold asksForHelpOrVersion in H.
  apply orb_false_elim in H. destruct H as [H V2].
  apply orb_false_elim in H. destruct H as [H V1].
  unfold parseArgs. rewrite H, V1, V2. cbn [orb]. split.
  - intros before flag rest A F K.
    rewrite A, (afterKeyFlag_first before flag rest F K), nonEmpty_hd_error.
    destruct (valueIn rest); reflexivity.
  - intros F. rewrite (afterKeyFlag_none (args p) F). reflexivity.
Qed.

(** Two key flags: the first one's value is the key.  A key flag with
    nothing behind it: the environment variable is the key. *)
Lemma first_key_flag_decides_witness :
  parseArgs twiceKeyed = Options (Some (js "first")) /\
  parseArgs danglingFlag = Options (Some (js "ghp_other")) /\
  parseArgs Sample.tokenInEnvironment = Options (Some (js "ghp_other")).
Proof.
  split; [|split].
  - apply (proj1 (first_key_flag_decides twiceKeyed eq_refl)
                 [js "--verbose"] (js "-g")
                 [js "first"; js "--github-api-key"; js "second"]);
      reflexivity.
  - apply (proj1 (first_key_flag_decides danglingFlag eq_refl) [] (js "-g") []);
      reflexivity.
  - apply (proj2 (first_key_flag_decides Sample.tokenInEnvironment eq_refl)).
    reflexivity.
Defined.

Lemma includes_middle (before : list jsstring) (flag : jsstring) (rest : list jsstring) :
  includes (before ++ flag :: rest) flag = true.
Proof.
  unfold includes. rewrite existsb_app. cbn [existsb].
  rewrite str_eqb_refl, orb_true_r. reflexivity.
Qed.

(** Help and version come first.  Wherever [--help] or [-h] stands
    among the arguments - also right behind the key flag, where the key
    would stand - the process prints the help text and exits with code
    0, having logged the start only; no key is read and no server is
    built.  Failing that, the same holds for [--version] and [-v] and
    the version line. *)
Theorem help_and_version_come_first
        (env : Collaborators) (reg : Registry) (p : Process)
        (before : list jsstring) (flag : jsstring) (rest : list jsstring) :
  args p = before ++ flag :: rest ->
  (flag = js "--help" \/ flag = js "-h" ->
   main env reg p = Exited 0 helpText [info "Starting React Bits MCP Server..."]) /\
  (asksForHelp p = false ->
   flag = js "--version" \/ flag = js "-v" ->
   main env reg p = Exited 0 (versionText p) [info "Starting React Bits MCP Server..."]).
Proof.
  intros A. pose proof (includes_middle before flag rest) as I. rewrite <- A in I.
  unfold main, parseArgs. split.
  - intros [-> | ->]; rewrite I, ?orb_true_r; reflexivity.
  - unfold asksForHelp. intros -> [-> | ->]; rewrite I, ?orb_true_r; reflexivity.
Qed.

(** [-g -h]: the help flag in the place of the key. *)
Lemma help_and_version_come_first_witness :
  main Sample.collaborators Sample.registry helpAsKey
  = Exited 0 helpText [info "Starting React Bits MCP Server..."].
Proof.
  apply (proj1 (help_and_version_come_first
                  Sample.collaborators Sample.registry helpAsKey
                  [js "--version"; js "-g"] (js "-h") [] eq_refl)).
  right. reflexivity.
Defined.

(** [main] uses the key as a flag only.  Two start-ups that both have a
    key, or both have none, and whose transport connects alike end
    alike and write the same log, entry for entry: nothing that [main]
    logs, prints or hands to the server depends on the key's value. *)
Theorem key_value_is_never_logged
        (env : Collaborators) (reg : Registry) (p q : Process)
        (keyOfP keyOfQ : option jsstring) :
  parseArgs p = Options keyOfP ->
  parseArgs q = Options keyOfQ ->
  (keyOfP = None <-> keyOfQ = None) ->
  connect p = connect q ->
  main env reg p = main env reg q.
Proof.
  intros Pp Pq Same C. unfold main. rewrite Pp, Pq, C.
  destruct keyOfP as [kp|], keyOfQ as [kq|]; try reflexivity.
  - destruct Same as [_ S]. discriminate (S eq_refl).
  - destruct Same as [S _]. discriminate (S eq_refl).
Qed.

(** A key on the command line and another one in the environment. *)
Lemma key_value_is_never_logged_witness :
  main Sample.collaborators Sample.registry Sample.keyedProcess
  = main Sample.collaborators Sample.registry Sample.tokenInEnvironment.
Proof.
  apply (key_value_is_never_logged
           Sample.collaborators Sample.registry
           Sample.keyedProcess Sample.tokenInEnvironment
           (Some (js "ghp_token")) (Some (js "ghp_other"))).
  - reflexivity.
  - reflexivity.
  - split; intros X; discriminate X.
  - reflexivity.
Defined.

End StartupMoreFacts.

